(** * MML-HoroPCA: the experiment pipeline of main.ipynb and main2.ipynb

    The two notebooks are the orchestration layer of the repository: they
    load a graph, obtain a hyperbolic embedding, measure its distortion,
    centre it at its Frechet mean and run one dimensionality-reduction
    method on the centred points.  The numerical packages they import
    (geom, learning, utils) are collaborators: the pipeline is embedded over
    an interface [Backend] that names every function the notebooks call, and
    every call is recorded in a trace, so that the order of the stages, the
    arguments of each call and the exceptions the notebooks raise are
    statements about the embedded code.

    The geometry and the Frechet-mean estimator that the specification
    describes are modelled further down, over the reals, in modules of
    their own. *)

From Stdlib Require Import ZArith QArith Reals List String Bool Lia Lra.
From stdpp Require Import gmap strings.
Import ListNotations.

Open Scope string_scope.
Open Scope Z_scope.
Open Scope list_scope.

(** ** Python values that cross the interface *)

(** What a call may hand back when the notebook unpacks or prints it: the
    notebooks only ever see tensors, booleans and integers there. *)
Inductive pyobj (Tensor : Type) : Type :=
| PTensor (t : Tensor)
| PBool (b : bool)
| PInt (n : Z).
Arguments PTensor {Tensor} t.
Arguments PBool {Tensor} b.
Arguments PInt {Tensor} n.

(** The exceptions the notebooks' own statements can raise. *)
Inductive exn : Type :=
| AssertionError (msg : string)
| UnboundLocalError (name : string)
| ValueError (msg : string)
| TypeError (msg : string)
| AttributeError (msg : string).

(** The five classes imported from learning.pca. *)
Inductive pca_class : Type := EucPCA | TangentPCA | PGA | BSA | HoroPCA.

#[global] Instance pca_class_eq_dec : EqDecision pca_class.
Proof. solve_decision. Defined.

(** One entry of the [pca_models] dictionary. *)
Record model_params : Type := {
  class : pca_class;
  optim : bool;
  iterative : bool;
  n_runs : Z
}.

(** The keyword arguments of [run]; floats are kept as the decimal
    rationals their literals denote (1e-2 is 0.01, 1e-5 is 0.00001, 5e-2 is
    0.05), no arithmetic is done on them here. *)
Record config : Type := {
  dataset : string;
  model_type : string;
  metrics_final : list string;
  dim : Z;
  n_components : Z;
  cfg_n_runs : Z;
  use_sarkar : bool;
  sarkar_scale : Q;
  lr : Q
}.

(** [run()] with every argument left at its default. *)
Definition default_config : config := {|
  dataset := "smalltree";
  model_type := "horopca";
  metrics_final := ["distortion"; "frechet_var"];
  dim := 10;
  n_components := 2;
  cfg_n_runs := 5;
  use_sarkar := false;
  sarkar_scale := 3.5%Q;
  lr := 0.05%Q
|}.

(** ** The collaborators *)

(** Everything the notebooks import and call.  [World] is the ambient state
    of the numerical runtime (the random generator the model constructors
    draw their initial components from); constructing and fitting a model
    thread it. *)
Class Backend : Type := {
  Graph : Type;
  Tensor : Type;
  Scalar : Type;
  Metrics : Type;
  Model : Type;
  World : Type;
  (* utils.data, networkx *)
  load_graph : string -> Graph;
  number_of_nodes : Graph -> Z;
  floyd_warshall_numpy : Graph -> list Z -> Tensor;
  load_embeddings : string -> Z -> Tensor;
  (* utils.sarkar *)
  pick_root : Graph -> Z;
  sarkar : Graph -> Q -> Z -> Z -> Tensor;
  (* geom.poincare *)
  pairwise_distance : Tensor -> Tensor;
  tensor_div : Tensor -> Q -> Tensor;
  reflect_at_zero : Tensor -> Tensor -> Tensor;
  (* utils.metrics; [avg_distortion] is avg_distortion_measures(..)[0] *)
  avg_distortion : Tensor -> Tensor -> Scalar;
  compute_metrics : Tensor -> Tensor -> Metrics;
  aggregate_metrics : list Metrics -> Metrics;
  format_metrics : Metrics -> list string -> list string;
  (* learning.frechet: Frechet(lr, eps, max_steps).mean(z, return_converged) *)
  Frechet_mean : Q -> Q -> Z -> Tensor -> bool -> list (pyobj Tensor);
  (* learning.pca *)
  pca_new : pca_class -> Z -> Z -> Q -> Z -> World -> Model * World;
  pca_fit : Model -> Tensor -> bool -> bool -> World -> Model * World;
  pca_compute_metrics : Model -> Tensor -> Metrics;
  pca_map_to_ball : Model -> Tensor -> Tensor;
  (* geom.hyperboloid *)
  hyperboloid_from_poincare : Tensor -> Tensor;
  hyperboloid_distance : Tensor -> Tensor -> Tensor;
  hyperboloid_mds : Tensor -> Z -> Tensor;
  hyperboloid_to_poincare : Tensor -> Tensor
}.

Section Pipeline.
Context {B : Backend}.

(** ** Traces *)

(** The lines the notebooks send to logging.info. *)
Inductive log_line : Type :=
| LogRunningExperiments (dataset : string)
| LogLoaded (dataset : string) (n_nodes : Z)
| LogUsingSarkar
| LogUsingOptimization
| LogDistortion (dim : Z) (distortion : Scalar)
| LogComputingFrechet
| LogConverged (has_converged : pyobj Tensor)
| LogRunningModel (model_type : string)
| LogRunningHMDS
| LogCompleted (dataset : string)
| LogComputingMetrics
| LogResult (line : string).

(** One event per call that leaves the notebook, with its arguments. *)
Inductive event : Type :=
| Log (l : log_line)
| Call_plt_figure
| Call_print (dataset : string)
| Call_load_graph (dataset : string)
| Call_floyd_warshall (g : Graph) (nodelist : list Z)
| Call_pick_root (g : Graph)
| Call_sarkar (g : Graph) (tau : Q) (root : Z) (dim : Z)
| Call_load_embeddings (dataset : string) (dim : Z)
| Call_pairwise_distance (z : Tensor)
| Call_avg_distortion (graph_dist z_dist : Tensor)
| Call_Frechet (lr eps : Q) (max_steps : Z)
| Call_frechet_mean (z : Tensor) (return_converged : bool)
| Call_reflect_at_zero (z mu : Tensor)
| Call_pca_new (c : pca_class) (dim n_components : Z) (lr : Q) (max_steps : Z)
| Call_fit (c : pca_class) (x : Tensor) (iterative optim : bool)
| Call_model_compute_metrics (c : pca_class) (x : Tensor)
| Call_map_to_ball (c : pca_class) (x : Tensor)
| Call_aggregate_metrics (ms : list Metrics)
| Call_from_poincare (x : Tensor)
| Call_hyperboloid_distance (x y : Tensor)
| Call_mds (D : Tensor) (d : Z)
| Call_to_poincare (x : Tensor)
| Call_compute_metrics (x x_proj : Tensor)
| Call_format_metrics (m : Metrics) (names : list string).

(** ** The monad of the notebooks: trace, ambient state, exceptions *)

Definition M (A : Type) : Type := World -> list event * (exn + A * World).

#[export] Instance M_ret : MRet M := fun A a w => ([], inr (a, w)).

#[export] Instance M_bind : MBind M := fun A C k m w =>
  match m w with
  | (t1, inl e) => (t1, inl e)
  | (t1, inr (a, w1)) =>
      match k a w1 with
      | (t2, r) => (t1 ++ t2, r)
      end
  end.

Definition raise {A} (e : exn) : M A := fun w => ([], inl e).

(** A call to a pure collaborator: record it, return its value. *)
Definition call {A} (ev : event) (a : A) : M A := fun w => ([ev], inr (a, w)).

(** A call to a collaborator that uses the ambient state. *)
Definition call_st {A} (ev : event) (f : World -> A * World) : M A :=
  fun w => ([ev], inr (f w)).

Definition logging_info (l : log_line) : M unit := call (Log l) tt.

Definition trace_of {A} (r : list event * (exn + A * World)) : list event := fst r.
Definition outcome_of {A} (r : list event * (exn + A * World)) : exn + A * World := snd r.

(** ** Local variables of [run] *)

(** [metrics] is a list while the runs accumulate and a dictionary once
    aggregated; [embeddings] starts as a dictionary and is rebound to an
    array by the fitting loop. *)
Inductive metrics_obj : Type :=
| MetricsList (l : list Metrics)
| MetricsDict (m : Metrics).

Inductive embeddings_obj : Type :=
| EmbDict (d : gmap string Tensor)
| EmbArray (a : Tensor).

(** The two locals the reduction block reads and rebinds.  [None] is a
    local that has not been assigned yet. *)
Record frame : Type := {
  metrics : option metrics_obj;
  embeddings : option embeddings_obj
}.

(** Reading a local variable. *)
Definition load_local {A} (name : string) (v : option A) : M A :=
  match v with
  | Some a => mret a
  | None => raise (UnboundLocalError name)
  end.

(** [metrics.append]: the attribute is looked up before the argument is
    evaluated. *)
Definition getattr_append (ms : metrics_obj) : M (list Metrics) :=
  match ms with
  | MetricsList l => mret l
  | MetricsDict _ => raise (AttributeError "append")
  end.

(** [embeddings[key] = value]. *)
Definition setitem (e : embeddings_obj) (key : string) (v : Tensor) : M embeddings_obj :=
  match e with
  | EmbDict d => mret (EmbDict (<[key := v]> d))
  | EmbArray _ => raise (TypeError "setitem")
  end.

(** [a, b = value]: the value must unpack to exactly two items. *)
Definition unpack2 (v : list (pyobj Tensor)) : M (pyobj Tensor * pyobj Tensor) :=
  match v with
  | [a; b] => mret (a, b)
  | [] => raise (ValueError "not enough values to unpack (expected 2, got 0)")
  | [_] => raise (ValueError "not enough values to unpack (expected 2, got 1)")
  | _ => raise (ValueError "too many values to unpack (expected 2)")
  end.

(** The first argument of [poincare.reflect_at_zero] is handed over as it
    is.  [reflect_at_zero] of the backend is defined on tensors only: what
    the library does with another object is outside the notebooks, and the
    block is cut there. *)
Definition as_tensor (v : pyobj Tensor) : M Tensor :=
  match v with
  | PTensor t => mret t
  | _ => raise (TypeError "tensor expected")
  end.

(** [for _ in range(n)]: the body threads the frame. *)
Fixpoint for_range (n : nat) (body : frame -> M frame) (fr : frame) : M frame :=
  match n with
  | O => mret fr
  | S k => fr' ← body fr; for_range k body fr'
  end.

Definition range (n : Z) : nat := Z.to_nat n.

Definition arange (n : Z) : list Z := map Z.of_nat (seq 0 (Z.to_nat n)).

(** [for line in results: logging.info(line)]. *)
Fixpoint log_each (results : list string) : M unit :=
  match results with
  | [] => mret tt
  | line :: rest => logging_info (LogResult line);; log_each rest
  end.

(** ** main2.ipynb *)

Definition load_graph_data (dataset : string) : M (Graph * Tensor) :=
  graph ← call (Call_load_graph dataset) (load_graph dataset);
  let n_nodes := number_of_nodes graph in
  let nodelist := arange n_nodes in
  graph_dist ← call (Call_floyd_warshall graph nodelist)
                    (floyd_warshall_numpy graph nodelist);
  mret (graph, graph_dist).

Definition get_hyperbolic_embeddings (graph : Graph) (dataset : string) (dim : Z)
    (use_sarkar : bool) (sarkar_scale : Q) : M (Tensor * Tensor) :=
  if use_sarkar then
    logging_info LogUsingSarkar;;
    root ← call (Call_pick_root graph) (pick_root graph);
    z ← call (Call_sarkar graph sarkar_scale root dim)
             (sarkar graph sarkar_scale root dim);
    d ← call (Call_pairwise_distance z) (pairwise_distance z);
    let z_dist := tensor_div d sarkar_scale in
    mret (z, z_dist)
  else
    logging_info LogUsingOptimization;;
    if bool_decide (dim ∈ [2; 10; 50]) then
      z ← call (Call_load_embeddings dataset dim) (load_embeddings dataset dim);
      z_dist ← call (Call_pairwise_distance z) (pairwise_distance z);
      mret (z, z_dist)
    else
      raise (AssertionError "pretrained embeddings are only for 2, 10 and 50 dimensions").

(** The [pca_models] dictionary of [run]. *)
Definition pca_models (n_runs : Z) : gmap string model_params :=
  list_to_map [
    ("pca", {| class := EucPCA; optim := false; iterative := false; n_runs := 1 |});
    ("tpca", {| class := TangentPCA; optim := false; iterative := false; n_runs := 1 |});
    ("pga", {| class := PGA; optim := true; iterative := true; n_runs := n_runs |});
    ("bsa", {| class := BSA; optim := true; iterative := false; n_runs := n_runs |});
    ("horopca", {| class := HoroPCA; optim := true; iterative := false; n_runs := n_runs |})
  ].

(** The Frechet object of the centring step. *)
Record frechet_obj : Type := { f_lr : Q; f_eps : Q; f_max_steps : Z }.

Definition Frechet (lr eps : Q) (max_steps : Z) : M frechet_obj :=
  call (Call_Frechet lr eps max_steps)
       {| f_lr := lr; f_eps := eps; f_max_steps := max_steps |}.

Definition frechet_mean (f : frechet_obj) (z : Tensor) (return_converged : bool)
    : M (list (pyobj Tensor)) :=
  call (Call_frechet_mean z return_converged)
       (Frechet_mean (f_lr f) (f_eps f) (f_max_steps f) z return_converged).

(** Distortion of the embedding, Frechet mean, recentring: lines 112-121 of
    main2.ipynb, cells 8 and 9 of main.ipynb. *)
Definition center (dim : Z) (graph_dist z z_dist : Tensor) : M Tensor :=
  distortion ← call (Call_avg_distortion graph_dist z_dist)
                    (avg_distortion graph_dist z_dist);
  logging_info (LogDistortion dim distortion);;
  logging_info LogComputingFrechet;;
  frechet ← Frechet 0.01%Q 0.00001%Q 5000;
  r ← frechet_mean frechet z true;
  '(mu_ref, has_converged) ← unpack2 r;
  logging_info (LogConverged has_converged);;
  mu ← as_tensor mu_ref;
  call (Call_reflect_at_zero z mu) (reflect_at_zero z mu).

(** One iteration of the fitting loop. *)
Definition fit_once (cfg : config) (mp : model_params) (x : Tensor) (fr : frame)
    : M frame :=
  model ← call_st (Call_pca_new (class mp) (dim cfg) (n_components cfg) (lr cfg) 500)
                  (pca_new (class mp) (dim cfg) (n_components cfg) (lr cfg) 500);
  model ← call_st (Call_fit (class mp) x (iterative mp) (optim mp))
                  (pca_fit model x (iterative mp) (optim mp));
  ms ← load_local "metrics" (metrics fr);
  l ← getattr_append ms;
  m ← call (Call_model_compute_metrics (class mp) x) (pca_compute_metrics model x);
  e ← call (Call_map_to_ball (class mp) x) (pca_map_to_ball model x);
  mret {| metrics := Some (MetricsList (l ++ [m])); embeddings := Some (EmbArray e) |}.

(** [metrics = aggregate_metrics(metrics)]. *)
Definition aggregate (fr : frame) : M frame :=
  ms ← load_local "metrics" (metrics fr);
  match ms with
  | MetricsList l =>
      agg ← call (Call_aggregate_metrics l) (aggregate_metrics l);
      mret {| metrics := Some (MetricsDict agg); embeddings := embeddings fr |}
  | MetricsDict _ => raise (TypeError "aggregate_metrics")
  end.

(** The hMDS baseline of the else branch. *)
Definition hmds_baseline (cfg : config) (x : Tensor) (fr : frame) : M frame :=
  logging_info LogRunningHMDS;;
  x_hyperboloid ← call (Call_from_poincare x) (hyperboloid_from_poincare x);
  distances ← call (Call_hyperboloid_distance x x) (hyperboloid_distance x x);
  D_p ← call (Call_pairwise_distance x) (pairwise_distance x);
  x_h ← call (Call_mds D_p (n_components cfg)) (hyperboloid_mds D_p (n_components cfg));
  x_proj ← call (Call_to_poincare x_h) (hyperboloid_to_poincare x_h);
  emb ← load_local "embeddings" (embeddings fr);
  emb ← setitem emb "hMDS" x_proj;
  m ← call (Call_compute_metrics x x_proj) (compute_metrics x x_proj);
  mret {| metrics := Some (MetricsDict m); embeddings := Some emb |}.

(** The reduction block: lines 123-150 of main2.ipynb, and the same
    statements at lines 238-264 of main.ipynb.  What differs between the two
    notebooks is the frame the block starts from. *)
Definition reduce (cfg : config) (x : Tensor) (fr : frame) : M frame :=
  match pca_models (cfg_n_runs cfg) !! model_type cfg with
  | Some model_params =>
      fr ← for_range (range (n_runs model_params)) (fit_once cfg model_params x) fr;
      aggregate fr
  | None => hmds_baseline cfg x fr
  end.

(** The closing lines of [run]: format and log the metrics. *)
Definition report (cfg : config) (fr : frame) : M metrics_obj :=
  logging_info (LogCompleted (dataset cfg));;
  logging_info LogComputingMetrics;;
  ms ← load_local "metrics" (metrics fr);
  match ms with
  | MetricsDict m =>
      results ← call (Call_format_metrics m (metrics_final cfg))
                     (format_metrics m (metrics_final cfg));
      log_each results;;
      mret ms
  | MetricsList _ => raise (TypeError "format_metrics")
  end.

End Pipeline.

(** The [config] dictionary that main2's [run] returns next to the metrics. *)
Record config_dict : Type := {
  cd_metrics_final : list string;
  cd_dim : Z;
  cd_n_components : Z;
  cd_n_runs : Z;
  cd_use_sarkar : bool;
  cd_sarkar_scale : Q;
  cd_lr : Q
}.

Definition config_dict_of (cfg : config) : config_dict := {|
  cd_metrics_final := metrics_final cfg;
  cd_dim := dim cfg;
  cd_n_components := n_components cfg;
  cd_n_runs := cfg_n_runs cfg;
  cd_use_sarkar := use_sarkar cfg;
  cd_sarkar_scale := sarkar_scale cfg;
  cd_lr := lr cfg
|}.

Module Main2.
Section Run.
Context {B : Backend}.

(** [run] of main2.ipynb, lines 86-157. *)
Definition run (cfg : config) : M (metrics_obj * config_dict) :=
  let config := config_dict_of cfg in
  let fr := {| metrics := Some (MetricsList []); embeddings := Some (EmbDict ∅) |} in
  logging_info (LogRunningExperiments (dataset cfg));;
  '(graph, graph_dist) ← load_graph_data (dataset cfg);
  '(z, z_dist) ← get_hyperbolic_embeddings graph (dataset cfg) (dim cfg)
                    (use_sarkar cfg) (sarkar_scale cfg);
  x ← center (dim cfg) graph_dist z z_dist;
  fr ← reduce cfg x fr;
  metrics ← report cfg fr;
  mret (metrics, config).

Definition list_dataset : list string :=
  ["smalltree"; "phylo-tree"; "ca-CSphd"; "bio-diseasome"].

Definition list_model : list string :=
  ["pca"; "horopca"; "pga"; "bsa"; "tpca"; "hmds"].

(** The call [run(dataset=dataset, model_type="horopca")] of the last cell:
    every other argument is at its default. *)
Definition sweep_config (dataset : string) : config := {|
  dataset := dataset; model_type := "horopca";
  metrics_final := metrics_final default_config;
  dim := dim default_config;
  n_components := n_components default_config;
  cfg_n_runs := cfg_n_runs default_config;
  use_sarkar := use_sarkar default_config;
  sarkar_scale := sarkar_scale default_config;
  lr := lr default_config
|}.

(** One item of [results]: the dictionary with the keys "dataset",
    "metrics" and "config". *)
Record result_entry : Type := {
  re_dataset : string;
  re_metrics : metrics_obj;
  re_config : config_dict
}.

(** The loop of the last cell, lines 208-211.  [results] is a list of the
    notebook's global scope that [append] mutates in place: it is threaded
    next to the outcome, so that what has been appended is still there when
    a run raises and the loop is left. *)
Fixpoint sweep (datasets : list string) (results : list result_entry) (w : World)
    : list event * list result_entry * (exn + World) :=
  match datasets with
  | [] => ([], results, inr w)
  | dataset :: rest =>
      match run (sweep_config dataset) w with
      | (t, inl e) => (Call_print dataset :: t, results, inl e)
      | (t, inr ((metrics, config), w1)) =>
          let '(t', results', o) :=
            sweep rest
              (results ++ [{| re_dataset := dataset; re_metrics := metrics;
                              re_config := config |}]) w1 in
          (Call_print dataset :: t ++ t', results', o)
      end
  end.

(** The last cell as a whole: [results = []], then the loop over
    [list_dataset]. *)
Definition last_cell (w : World) : list event * list result_entry * (exn + World) :=
  sweep list_dataset [] w.

End Run.
End Main2.

Module Main.
Section Notebook.
Context {B : Backend}.

(** The assignments of cell 3 as committed. *)
Definition cell3 : config := {|
  dataset := "ca-CSphd";
  model_type := "horopca";
  metrics_final := ["distortion"; "frechet_var"];
  dim := 10;
  n_components := 2;
  cfg_n_runs := 5;
  use_sarkar := false;
  sarkar_scale := 3.5%Q;
  lr := 0.05%Q
|}.

(** [run] of main.ipynb, lines 229-270.  It reads the centred points from
    the global [x]; [metrics] and [embeddings] are assigned in its body, so
    they are locals of the function, and nothing binds them before the
    reduction block reads them. *)
Definition run (x : Tensor) (cfg : config) : M unit :=
  let fr := {| metrics := None; embeddings := None |} in
  fr ← reduce cfg x fr;
  report cfg fr;;
  mret tt.

(** Cells 4 to 9, top to bottom, on the values [g] that cell 3 assigns;
    the result is the global [x]. *)
Definition centering_cells (g : config) : M Tensor :=
  logging_info (LogRunningExperiments (dataset g));;
  call Call_plt_figure tt;;
  '(graph, graph_dist) ← load_graph_data (dataset g);
  logging_info (LogLoaded (dataset g) (number_of_nodes graph));;
  '(z, z_dist) ← get_hyperbolic_embeddings graph (dataset g) (dim g)
                    (use_sarkar g) (sarkar_scale g);
  center (dim g) graph_dist z z_dist.

(** The whole notebook: cells 4 to 9, cell 10 (which also defines [run]),
    and cell 11, which calls [run()] with every argument at its default. *)
Definition notebook (g : config) : M unit :=
  x ← centering_cells g;
  logging_info (LogRunningModel (model_type g));;
  dist_orig ← call (Call_pairwise_distance x) (pairwise_distance x);
  run x default_config.

End Notebook.
End Main.

(** ** The Frechet-mean estimator *)

Module FrechetSpec.
Section Estimator.

(** learning.frechet is not part of the sources at hand.  The initial
    choice of the candidate, the projected gradient step and the tolerance
    test belong to the numerical runtime and are parameters of the model. *)
Variable Point : Type.
Variable init : Point -> Point.
Variable step : Q -> Point -> Point -> Point.
Variable below : Q -> Point -> Point -> bool.

Inductive verdict : Type := Converged | MaxStepsReached.

Record result : Type := {
  mean_point : Point;
  status : verdict;
  iterations : Z
}.

(** Modelled from the spec: the Iterating state of section 4.4, with [k]
    steps made, candidate [mu] and [fuel] steps left.  Each iteration takes
    one step; the loop stops with Converged when the change of that step
    falls below [eps], and with MaxStepsReached when the budget is used
    up. *)
Fixpoint iterate (lr eps : Q) (x : Point) (fuel : nat) (k : Z) (mu : Point) : result :=
  match fuel with
  | O => {| mean_point := mu; status := MaxStepsReached; iterations := k |}
  | S fuel' =>
      let mu' := step lr x mu in
      if below eps mu mu'
      then {| mean_point := mu'; status := Converged; iterations := k + 1 |}
      else iterate lr eps x fuel' (k + 1) mu'
  end.

(** Modelled from the spec: Frechet.mean of learning.frechet, section 4.4:
    Init, then Iterating from the initial candidate with a budget of
    [max_steps]; the result carries the mean, the verdict and the number of
    iterations used. *)
Definition mean (lr eps : Q) (max_steps : Z) (x : Point) : result :=
  iterate lr eps x (Z.to_nat max_steps) 0 (init x).

Definition has_converged (r : result) : bool :=
  match status r with Converged => true | MaxStepsReached => false end.

(** Modelled from the spec: the output as section 4.4 lists it, mean,
    flag, iterations used. *)
Definition output_spec (r : result) : list (pyobj Point) :=
  [PTensor (mean_point r); PBool (has_converged r); PInt (iterations r)].

(** The output as the notebooks unpack it: mean and flag. *)
Definition output_pair (r : result) : list (pyobj Point) :=
  [PTensor (mean_point r); PBool (has_converged r)].

(** The candidate after [n] steps when the tolerance test is ignored. *)
Fixpoint candidate (lr : Q) (x : Point) (n : nat) : Point :=
  match n with
  | O => init x
  | S n' => step lr x (candidate lr x n')
  end.

End Estimator.
End FrechetSpec.

(** ** A symbolic backend *)

(** Tensors are the expressions that produced them, models remember the
    draw they were initialised from: running a notebook on this backend
    shows which value flows into which call. *)
Module Symbolic.

Inductive tensor : Type :=
| GraphDist (dataset : string) (nodelist : list Z)
| Pretrained (dataset : string) (dim : Z)
| SarkarEmbedding (dataset : string) (tau : Q) (root dim : Z)
| Pairwise (z : tensor)
| Div (t : tensor) (q : Q)
| Start (z : tensor)
| Step (lr : Q) (z mu : tensor)
| Reflect (z mu : tensor)
| Ball (c : pca_class) (seed : nat) (x : tensor)
| Hyperboloid (x : tensor)
| HDist (x y : tensor)
| MDS (D : tensor) (d : Z)
| Poincare (x : tensor).

Inductive scalar : Type := Distortion (graph_dist z_dist : tensor).

(** A metrics record lists the measurements it was computed from. *)
Inductive measurement : Type :=
| ModelMetrics (c : pca_class) (seed : nat) (x : tensor)
| Compared (x x_proj : tensor).

Record model : Type := { m_class : pca_class; m_seed : nat; m_fitted : bool }.

(** The estimator of section 4.4 on symbolic tensors; [below] decides when
    a step counts as small, [arity3] selects the three-valued output of the
    specification instead of the pair. *)
Definition estimator (below : Q -> tensor -> tensor -> bool) (arity3 : bool)
    (lr eps : Q) (max_steps : Z) (z : tensor) (return_converged : bool)
    : list (pyobj tensor) :=
  let r := FrechetSpec.mean tensor Start Step below lr eps max_steps z in
  if return_converged
  then (if arity3 then FrechetSpec.output_spec tensor r
        else FrechetSpec.output_pair tensor r)
  else [PTensor (FrechetSpec.mean_point tensor r)].

(** The collaborators on symbolic values, around an estimator [est]. *)
Definition backend_with
    (est : Q -> Q -> Z -> tensor -> bool -> list (pyobj tensor)) : Backend := {|
  Graph := string;
  Tensor := tensor;
  Scalar := scalar;
  Metrics := list measurement;
  Model := model;
  World := nat;
  load_graph := fun dataset => dataset;
  number_of_nodes := fun g => Z.of_nat (String.length g);
  floyd_warshall_numpy := GraphDist;
  load_embeddings := Pretrained;
  pick_root := fun _ => 0;
  sarkar := SarkarEmbedding;
  pairwise_distance := Pairwise;
  tensor_div := Div;
  reflect_at_zero := Reflect;
  avg_distortion := Distortion;
  compute_metrics := fun x x_proj => [Compared x x_proj];
  aggregate_metrics := @concat measurement;
  format_metrics := fun _ names => names;
  Frechet_mean := est;
  pca_new := fun c _ _ _ _ w => ({| m_class := c; m_seed := w; m_fitted := false |}, S w);
  pca_fit := fun m _ _ _ w =>
    ({| m_class := m_class m; m_seed := m_seed m; m_fitted := true |}, w);
  pca_compute_metrics := fun m x => [ModelMetrics (m_class m) (m_seed m) x];
  pca_map_to_ball := fun m x => Ball (m_class m) (m_seed m) x;
  hyperboloid_from_poincare := Hyperboloid;
  hyperboloid_distance := HDist;
  hyperboloid_mds := MDS;
  hyperboloid_to_poincare := Poincare
|}.

Definition backend (below : Q -> tensor -> tensor -> bool) (arity3 : bool) : Backend :=
  backend_with (estimator below arity3).

(** A step counts as small once two steps were made. *)
Definition two_steps (eps : Q) (mu mu' : tensor) : bool :=
  match mu' with
  | Step _ _ (Step _ _ _) => true
  | _ => false
  end.

Definition never (eps : Q) (mu mu' : tensor) : bool := false.

(** The estimator meets its tolerance after two steps and returns the
    pair. *)
Definition converging : Backend := backend two_steps false.

(** The estimator never meets its tolerance and returns the pair. *)
Definition exhausting : Backend := backend never false.

(** The estimator never meets its tolerance and returns the three values
    of section 4.4. *)
Definition three_valued : Backend := backend never true.

(** The estimator of [converging], except on the pretrained embedding of
    the dataset [name], where it is that of [three_valued]. *)
Definition failing_on (name : string) : Backend :=
  backend_with (fun lr eps max_steps z return_converged =>
    match z with
    | Pretrained dataset _ =>
        if String.eqb dataset name
        then estimator never true lr eps max_steps z return_converged
        else estimator two_steps false lr eps max_steps z return_converged
    | _ => estimator two_steps false lr eps max_steps z return_converged
    end).

(** The pretrained embedding of the default dataset. *)
Definition smalltree : tensor := Pretrained "smalltree" 10.

(** Its mean after the two steps of [two_steps], and the centred points. *)
Definition smalltree_mean : tensor :=
  Step 0.01%Q smalltree (Step 0.01%Q smalltree (Start smalltree)).

Definition smalltree_centred : tensor := Reflect smalltree smalltree_mean.

(** What the hMDS baseline measures on them. *)
Definition smalltree_hmds : list measurement :=
  [Compared smalltree_centred (Poincare (MDS (Pairwise smalltree_centred) 2))].

End Symbolic.

(** [run(model_type="hmds")], the last entry of [list_model]. *)
Definition hmds_config : config := {|
  dataset := "smalltree"; model_type := "hmds";
  metrics_final := ["distortion"; "frechet_var"];
  dim := 10; n_components := 2; cfg_n_runs := 5;
  use_sarkar := false; sarkar_scale := 3.5%Q; lr := 0.05%Q |}.

(** [run(n_runs=0)]. *)
Definition no_runs_config : config := {|
  dataset := "smalltree"; model_type := "horopca";
  metrics_final := ["distortion"; "frechet_var"];
  dim := 10; n_components := 2; cfg_n_runs := 0;
  use_sarkar := false; sarkar_scale := 3.5%Q; lr := 0.05%Q |}.

(** [run(dim=3)]. *)
Definition dim3_config : config := {|
  dataset := "smalltree"; model_type := "horopca";
  metrics_final := ["distortion"; "frechet_var"];
  dim := 3; n_components := 2; cfg_n_runs := 5;
  use_sarkar := false; sarkar_scale := 3.5%Q; lr := 0.05%Q |}.

(** ** Hyperbolic geometry over the reals *)

Module Geometry.
Local Open Scope R_scope.

(** geom.minkowski, geom.hyperboloid and geom.poincare are not part of the
    sources at hand; their functions are modelled from sections 4.1 to 4.3
    of the specification.  Points are lists of coordinates.  Floating-point
    numbers are idealised as reals, so the laws proved of this model hold
    exactly where the specification asks for them up to rounding. *)

(** Euclidean inner product, norm and vector operations on coordinate
    lists. *)
Fixpoint dot (u v : list R) : R :=
  match u, v with
  | a :: u', b :: v' => a * b + dot u' v'
  | _, _ => 0
  end.

Definition sqnorm (u : list R) : R := dot u u.

Definition scale (c : R) (u : list R) : list R := map (Rmult c) u.

Definition opp (u : list R) : list R := map Ropp u.

Fixpoint add (u v : list R) : list R :=
  match u, v with
  | a :: u', b :: v' => (a + b) :: add u' v'
  | _, _ => []
  end.

Definition sub (u v : list R) : list R := add u (opp v).

(** Modelled from the spec: the bilinear form of geom.minkowski, section
    4.1: <u,v> = - u0 v0 + sum of ui vi for i >= 1. *)
Definition minkowski_dot (u v : list R) : R :=
  match u, v with
  | u0 :: us, v0 :: vs => - (u0 * v0) + dot us vs
  | _, _ => 0
  end.

(** Modelled from the spec: squaredNorm of geom.minkowski, <x,x>. *)
Definition squared_norm (x : list R) : R := minkowski_dot x x.

(** Modelled from the spec: from_poincare of geom.hyperboloid, section 4.2,
    "the standard projective correspondence" between the ball and the
    hyperboloid, the time-like coordinate first as in the bilinear form;
    with [ideal] a boundary direction goes to the light cone. *)
Definition from_poincare (x : list R) (ideal : bool) : list R :=
  if ideal then 1 :: x
  else
    let s := sqnorm x in
    ((1 + s) / (1 - s)) :: scale (2 / (1 - s)) x.

(** Modelled from the spec: to_poincare of geom.hyperboloid, section 4.2,
    the projection of the hyperboloid back onto the ball. *)
Definition to_poincare (y : list R) : list R :=
  match y with
  | y0 :: ys => scale (/ (1 + y0)) ys
  | [] => []
  end.

(** Modelled from the spec: the Moebius sum that section 4.3 computes the
    distance from. *)
Definition mobius_add (x y : list R) : list R :=
  let xy := dot x y in
  let x2 := sqnorm x in
  let y2 := sqnorm y in
  scale (/ (1 + 2 * xy + x2 * y2))
        (add (scale (1 + 2 * xy + y2) x) (scale (1 - x2) y)).

Definition arctanh (t : R) : R := ln ((1 + t) / (1 - t)) / 2.

(** Modelled from the spec: the ball distance of geom.poincare, section
    4.3: 2 arctanh |(-x) + y| with the Moebius sum. *)
Definition distance (x y : list R) : R :=
  2 * arctanh (sqrt (sqnorm (mobius_add (opp x) y))).

(** Modelled from the spec: pairwise_distance of geom.poincare, the full
    matrix of distances of a point set. *)
Definition pairwise_distance (X : list (list R)) : list (list R) :=
  map (fun xi => map (fun xj => distance xi xj) X) X.

(** Inversion of [x] in the sphere of centre [a] and squared radius
    [|a|^2 - 1], which meets the unit sphere at right angles. *)
Definition reflect (x a : list R) : list R :=
  let r2 := sqnorm a - 1 in
  let u := sub x a in
  add (scale (r2 / sqnorm u) u) a.

(** Modelled from the spec: reflect_at_zero of geom.poincare, section 4.3,
    "the isometry that maps the manifold's current center mu to the origin,
    translating the whole point set by that isometry".  For a centre other
    than the origin it is the reflection of the ball that exchanges [mu] and
    the origin, the inversion in the sphere centred at [mu / |mu|^2].  That
    sphere does not exist for the origin: a point set whose centre is the
    origin already is left where it is. *)
Definition reflect_at_zero (x mu : list R) : list R :=
  if Req_dec_T (sqnorm mu) 0 then x
  else reflect x (scale (/ sqnorm mu) mu).

(** The recentring of a point set. *)
Definition reflect_all_at_zero (z : list (list R)) (mu : list R) : list (list R) :=
  map (fun x => reflect_at_zero x mu) z.

(** Two points agree coordinate by coordinate up to [tol]. *)
Definition within (tol : R) (u v : list R) : Prop :=
  Forall2 (fun a b => Rabs (a - b) <= tol) u v.

End Geometry.

(** ** Reading traces *)

Section Reading.
Context {B : Backend}.

(** A computation only emits events that satisfy [P]. *)
Definition emits {A} (P : event -> Prop) (m : M A) : Prop :=
  forall w, Forall P (trace_of (m w)).

(** The hyperparameters an event may carry: those of the Frechet object
    and those of a model constructor. *)
Definition hyperparameters (lr0 : Q) (e : event) : Prop :=
  match e with
  | Call_Frechet lr eps max_steps => lr = 0.01%Q /\ eps = 0.00001%Q /\ max_steps = 5000
  | Call_pca_new _ _ _ lr max_steps => lr = lr0 /\ max_steps = 500
  | _ => True
  end.

(** Events of the centring step: the Frechet object, the mean, the report
    of the flag and the reflection. *)
Definition is_centering (e : event) : bool :=
  match e with
  | Call_Frechet _ _ _ | Call_frechet_mean _ _ | Log (LogConverged _)
  | Call_reflect_at_zero _ _ => true
  | _ => false
  end.

Definition is_fit (e : event) : bool :=
  match e with Call_fit _ _ _ _ => true | _ => false end.

Definition is_aggregate (e : event) : bool :=
  match e with Call_aggregate_metrics _ => true | _ => false end.

(** The same configuration with another learning rate. *)
Definition with_lr (l : Q) (cfg : config) : config := {|
  dataset := dataset cfg; model_type := model_type cfg;
  metrics_final := metrics_final cfg; dim := dim cfg;
  n_components := n_components cfg; cfg_n_runs := cfg_n_runs cfg;
  use_sarkar := use_sarkar cfg; sarkar_scale := sarkar_scale cfg; lr := l |}.

(** What the embedding step returns and emits when it does not raise. *)
Definition embedding (cfg : config) (graph : Graph) : Tensor * Tensor :=
  if use_sarkar cfg then
    let z := sarkar graph (sarkar_scale cfg) (pick_root graph) (dim cfg) in
    (z, tensor_div (pairwise_distance z) (sarkar_scale cfg))
  else
    let z := load_embeddings (dataset cfg) (dim cfg) in
    (z, pairwise_distance z).

Definition embedding_events (cfg : config) (graph : Graph) : list event :=
  if use_sarkar cfg then
    [Log LogUsingSarkar; Call_pick_root graph;
     Call_sarkar graph (sarkar_scale cfg) (pick_root graph) (dim cfg);
     Call_pairwise_distance (fst (embedding cfg graph))]
  else
    [Log LogUsingOptimization; Call_load_embeddings (dataset cfg) (dim cfg);
     Call_pairwise_distance (fst (embedding cfg graph))].

(** The events of the centring block when the mean comes back as the pair
    [(mu, flag)]. *)
Definition center_events (dim : Z) (graph_dist z z_dist mu : Tensor)
    (flag : pyobj Tensor) : list event :=
  [Call_avg_distortion graph_dist z_dist;
   Log (LogDistortion dim (avg_distortion graph_dist z_dist));
   Log LogComputingFrechet;
   Call_Frechet 0.01%Q 0.00001%Q 5000;
   Call_frechet_mean z true;
   Log (LogConverged flag);
   Call_reflect_at_zero z mu].

(** The models of [n] successive runs, each constructed from the ambient
    state its predecessor left and then fitted, and the state after them. *)
Fixpoint fitted_models (cfg : config) (mp : model_params) (x : Tensor)
    (n : nat) (w : World) : list Model * World :=
  match n with
  | O => ([], w)
  | S k =>
      let '(m0, w1) := pca_new (class mp) (dim cfg) (n_components cfg) (lr cfg) 500 w in
      let '(m1, w2) := pca_fit m0 x (iterative mp) (optim mp) w1 in
      let '(ms, w') := fitted_models cfg mp x k w2 in
      (m1 :: ms, w')
  end.

(** The four calls of one run. *)
Definition run_events (cfg : config) (mp : model_params) (x : Tensor) : list event :=
  [Call_pca_new (class mp) (dim cfg) (n_components cfg) (lr cfg) 500;
   Call_fit (class mp) x (iterative mp) (optim mp);
   Call_model_compute_metrics (class mp) x;
   Call_map_to_ball (class mp) x].

(** The events of the hMDS baseline. *)
Definition hmds_events (cfg : config) (x : Tensor) : list event :=
  let D_p := pairwise_distance x in
  let x_h := hyperboloid_mds D_p (n_components cfg) in
  [Log LogRunningHMDS; Call_from_poincare x; Call_hyperboloid_distance x x;
   Call_pairwise_distance x; Call_mds D_p (n_components cfg);
   Call_to_poincare x_h; Call_compute_metrics x (hyperboloid_to_poincare x_h)].

(** The events of the closing lines of [run] on the metrics [m]. *)
Definition report_events (cfg : config) (m : Metrics) : list event :=
  [Log (LogCompleted (dataset cfg)); Log LogComputingMetrics;
   Call_format_metrics m (metrics_final cfg)]
  ++ map (fun line => Log (LogResult line)) (format_metrics m (metrics_final cfg)).

(** The load stage: the graph and its all-pairs shortest paths. *)
Definition load_events (cfg : config) : list event :=
  let graph := load_graph (dataset cfg) in
  [Call_load_graph (dataset cfg);
   Call_floyd_warshall graph (arange (number_of_nodes graph))].

(** The stages between loading and reduction when the mean comes back as
    [(mu, flag)]: embedding, distortion, Frechet mean, reflection. *)
(** The events of the centring block up to the statement that unpacks the
    value of [frechet.mean]. *)
Definition unpack_events (dim : Z) (graph_dist z z_dist : Tensor) : list event :=
  [Call_avg_distortion graph_dist z_dist;
   Log (LogDistortion dim (avg_distortion graph_dist z_dist));
   Log LogComputingFrechet;
   Call_Frechet 0.01%Q 0.00001%Q 5000;
   Call_frechet_mean z true].

(** What [a, b = value] raises on a value of [n] items, [n] other than 2. *)
Definition unpack_error (n : nat) : exn :=
  match n with
  | 0%nat => ValueError "not enough values to unpack (expected 2, got 0)"
  | 1%nat => ValueError "not enough values to unpack (expected 2, got 1)"
  | _ => ValueError "too many values to unpack (expected 2)"
  end.

Definition centering_trace (cfg : config) (mu : Tensor) (flag : pyobj Tensor)
    : list event :=
  let graph := load_graph (dataset cfg) in
  let graph_dist := floyd_warshall_numpy graph (arange (number_of_nodes graph)) in
  embedding_events cfg graph
  ++ center_events (dim cfg) graph_dist (fst (embedding cfg graph))
       (snd (embedding cfg graph)) mu flag.

(** The reduction stage on centred points [x]: its events, the metrics it
    leaves in [metrics] and the ambient state after it.  A model type of the
    table selects one class, fitted [range(n_runs)] times with the metrics
    of each fit computed and then aggregated; any other model type selects
    the hMDS baseline. *)
Definition reduction (cfg : config) (x : Tensor) (w : World)
    : list event * Metrics * World :=
  match pca_models (cfg_n_runs cfg) !! model_type cfg with
  | Some mp =>
      let '(models, w') := fitted_models cfg mp x (range (n_runs mp)) w in
      let ms := map (fun m => pca_compute_metrics m x) models in
      (concat (replicate (range (n_runs mp)) (run_events cfg mp x))
         ++ [Call_aggregate_metrics ms],
       aggregate_metrics ms, w')
  | None =>
      let x_proj := hyperboloid_to_poincare
                      (hyperboloid_mds (pairwise_distance x) (n_components cfg)) in
      (hmds_events cfg x, compute_metrics x x_proj, w)
  end.

(** The value of [embeddings] after the loop: the projection of the last
    model, or what it was bound to before when no run was made. *)
Definition last_embedding (e0 : embeddings_obj) (x : Tensor) (models : list Model)
    : embeddings_obj :=
  match last models with
  | Some m => EmbArray (pca_map_to_ball m x)
  | None => e0
  end.

(** Calls of the PCA path of the reduction block, and of its hMDS path. *)
Definition is_pca_call (e : event) : bool :=
  match e with
  | Call_pca_new _ _ _ _ _ | Call_fit _ _ _ _ | Call_model_compute_metrics _ _
  | Call_map_to_ball _ _ | Call_aggregate_metrics _ => true
  | _ => false
  end.

Definition is_hmds_call (e : event) : bool :=
  match e with
  | Call_from_poincare _ | Call_hyperboloid_distance _ _ | Call_mds _ _
  | Call_to_poincare _ | Call_compute_metrics _ _ => true
  | _ => false
  end.

(** Calls of the two embedding sources. *)
Definition is_pretrained_call (e : event) : bool :=
  match e with Call_load_embeddings _ _ => true | _ => false end.

Definition is_sarkar_call (e : event) : bool :=
  match e with Call_pick_root _ | Call_sarkar _ _ _ _ => true | _ => false end.

(** The keys of [pca_models]. *)
Definition table_keys : list string := ["pca"; "tpca"; "pga"; "bsa"; "horopca"].

(** Calls of the embedding source a configuration does not select, and of
    the reduction method it does not select. *)
Definition other_source (cfg : config) (e : event) : bool :=
  if use_sarkar cfg then is_pretrained_call e else is_sarkar_call e.

Definition other_method (cfg : config) (e : event) : bool :=
  if bool_decide (model_type cfg ∈ table_keys) then is_hmds_call e else is_pca_call e.

End Reading.

(** * Properties of the pipeline *)

Section PipelineFacts.
Context {B : Backend}.

(** ** The monad *)

Lemma bind_ok {A C} (m : M A) (k : A -> M C) w t a w' :
  m w = (t, inr (a, w')) ->
  (m ≫= k) w = (t ++ trace_of (k a w'), outcome_of (k a w')).
Proof.
  intros H. unfold mbind, M_bind. rewrite H.
  destruct (k a w') as [t2 r]. reflexivity.
Qed.

Lemma bind_raise {A C} (m : M A) (k : A -> M C) w t e :
  m w = (t, inl e) -> (m ≫= k) w = (t, inl e).
Proof. intros H. unfold mbind, M_bind. rewrite H. reflexivity. Qed.

Lemma bind_trace {A C} (m : M A) (k : A -> M C) w :
  trace_of ((m ≫= k) w) =
  trace_of (m w) ++ match outcome_of (m w) with
                    | inr (a, w') => trace_of (k a w')
                    | inl _ => []
                    end.
Proof.
  unfold mbind, M_bind. destruct (m w) as [t1 [e | [a w']]]; cbn.
  - symmetry. apply app_nil_r.
  - destruct (k a w') as [t2 r]. reflexivity.
Qed.

(** ** Events that a block can emit *)

Lemma emits_ret {A} P (a : A) : emits P (mret a).
Proof. intros w. constructor. Qed.

Lemma emits_raise {A} P e : emits P (@raise B A e).
Proof. intros w. constructor. Qed.

Lemma emits_call {A} (P : event -> Prop) ev (a : A) : P ev -> emits P (call ev a).
Proof. intros H w. repeat constructor. exact H. Qed.

Lemma emits_call_st {A} (P : event -> Prop) ev (f : World -> A * World) :
  P ev -> emits P (call_st ev f).
Proof. intros H w. repeat constructor. exact H. Qed.

Lemma emits_bind {A C} P (m : M A) (k : A -> M C) :
  emits P m -> (forall a, emits P (k a)) -> emits P (m ≫= k).
Proof.
  intros Hm Hk w. rewrite bind_trace. apply Forall_app. split.
  - apply Hm.
  - destruct (outcome_of (m w)) as [e | [a w']]; [constructor | apply Hk].
Qed.

Lemma emits_load_local {A} P name (v : option A) : emits P (load_local name v).
Proof. destruct v; [apply emits_ret | apply emits_raise]. Qed.

Lemma emits_for_range P n body fr :
  (forall fr', emits P (body fr')) -> emits P (for_range n body fr).
Proof.
  intros Hb. revert fr. induction n as [| n IH]; intros fr; cbn.
  - apply emits_ret.
  - apply emits_bind; [apply Hb | intros fr'; apply IH].
Qed.

Lemma emits_log_each (P : event -> Prop) results :
  (forall line, P (Log (LogResult line))) -> emits P (log_each results).
Proof.
  intros Hl. induction results as [| line rest IH]; cbn.
  - apply emits_ret.
  - apply emits_bind; [apply emits_call, Hl | intros _; exact IH].
Qed.

(** ** The blocks one by one *)

Lemma log_each_run results w :
  log_each results w = (map (fun line => Log (LogResult line)) results, inr (tt, w)).
Proof.
  induction results as [| line rest IH]; [reflexivity |].
  cbn [log_each]. erewrite bind_ok by reflexivity.
  rewrite IH. reflexivity.
Qed.

Lemma load_graph_data_run ds w :
  let graph := load_graph ds in
  let nodelist := arange (number_of_nodes graph) in
  load_graph_data ds w =
    ([Call_load_graph ds; Call_floyd_warshall graph nodelist],
     inr ((graph, floyd_warshall_numpy graph nodelist), w)).
Proof. reflexivity. Qed.

Lemma embedding_run cfg graph w :
  get_hyperbolic_embeddings graph (dataset cfg) (dim cfg) (use_sarkar cfg)
      (sarkar_scale cfg) w =
    if use_sarkar cfg || bool_decide (dim cfg ∈ [2; 10; 50])
    then (embedding_events cfg graph, inr (embedding cfg graph, w))
    else ([Log LogUsingOptimization],
          inl (AssertionError "pretrained embeddings are only for 2, 10 and 50 dimensions")).
Proof.
  unfold get_hyperbolic_embeddings, embedding_events, embedding.
  destruct (use_sarkar cfg); [reflexivity |].
  cbn [orb]. destruct (bool_decide (dim cfg ∈ [2; 10; 50])); reflexivity.
Qed.

Lemma center_run d graph_dist z z_dist mu flag w :
  Frechet_mean 0.01%Q 0.00001%Q 5000 z true = [PTensor mu; flag] ->
  center d graph_dist z z_dist w =
    (center_events d graph_dist z z_dist mu flag, inr (reflect_at_zero z mu, w)).
Proof.
  intros H. unfold center, frechet_mean, Frechet.
  unfold mbind, M_bind, call, logging_info, call. cbn.
  rewrite H. reflexivity.
Qed.

(** The centring block goes through only when the mean comes back as
    exactly two values, the first of them a tensor. *)
Lemma center_needs_pair d graph_dist z z_dist w x w' :
  outcome_of (center d graph_dist z z_dist w) = inr (x, w') ->
  exists mu flag,
    Frechet_mean 0.01%Q 0.00001%Q 5000 z true = [PTensor mu; flag]
    /\ x = reflect_at_zero z mu.
Proof.
  unfold center, frechet_mean, Frechet, mbind, M_bind, call, logging_info, call.
  cbn.
  destruct (Frechet_mean 0.01%Q 0.00001%Q 5000 z true)
    as [| v1 [| v2 [| v3 r]]]; cbn; try discriminate.
  destruct v1 as [mu | b | n]; cbn; try discriminate.
  intros H. injection H as <- _. exists mu, v2. split; reflexivity.
Qed.

(** A value of [frechet.mean] that does not unpack to two items stops the
    block at the unpacking: the flag is not logged, nothing is reflected. *)
Lemma center_unpack_raises d graph_dist z z_dist w :
  length (Frechet_mean 0.01%Q 0.00001%Q 5000 z true) <> 2%nat ->
  center d graph_dist z z_dist w =
    (unpack_events d graph_dist z z_dist,
     inl (unpack_error (length (Frechet_mean 0.01%Q 0.00001%Q 5000 z true)))).
Proof.
  unfold center, frechet_mean, Frechet, mbind, M_bind, call, logging_info, call.
  cbn.
  destruct (Frechet_mean 0.01%Q 0.00001%Q 5000 z true)
    as [| v1 [| v2 [| v3 r]]]; cbn; intros Hlen;
    try reflexivity; contradiction Hlen; reflexivity.
Qed.

Lemma last_embedding_cons e0 x m ms :
  last_embedding e0 x (m :: ms) = last_embedding (EmbArray (pca_map_to_ball m x)) x ms.
Proof.
  unfold last_embedding. destruct ms as [| m' ms]; [reflexivity |].
  change (last (m :: m' :: ms)) with (last (m' :: ms)).
  destruct (last (m' :: ms)) eqn:E; [reflexivity |].
  apply last_None in E. discriminate.
Qed.

Lemma fit_loop_run cfg mp x n l0 e0 w :
  for_range n (fit_once cfg mp x)
      {| metrics := Some (MetricsList l0); embeddings := Some e0 |} w =
    let '(models, w') := fitted_models cfg mp x n w in
    (concat (replicate n (run_events cfg mp x)),
     inr ({| metrics := Some (MetricsList
                (l0 ++ map (fun m => pca_compute_metrics m x) models));
             embeddings := Some (last_embedding e0 x models) |}, w')).
Proof.
  revert l0 e0 w. induction n as [| n IH]; intros l0 e0 w.
  - cbn. rewrite app_nil_r. reflexivity.
  - cbn [for_range fitted_models].
    destruct (pca_new (class mp) (dim cfg) (n_components cfg) (lr cfg) 500 w)
      as [m0 w1] eqn:Hnew.
    destruct (pca_fit m0 x (iterative mp) (optim mp) w1) as [m1 w2] eqn:Hfit.
    erewrite bind_ok; cycle 1.
    { unfold fit_once, mbind, M_bind, call_st, call. cbn.
      rewrite Hnew. cbn. rewrite Hfit. cbn. reflexivity. }
    rewrite IH. destruct (fitted_models cfg mp x n w2) as [ms w'] eqn:Hms.
    cbn. f_equal. f_equal. f_equal. f_equal.
    + rewrite <- app_assoc. reflexivity.
    + rewrite last_embedding_cons. reflexivity.
Qed.

Lemma pca_models_lookup n k :
  pca_models n !! k =
    if decide (k = "pca") then
      Some {| class := EucPCA; optim := false; iterative := false; n_runs := 1 |}
    else if decide (k = "tpca") then
      Some {| class := TangentPCA; optim := false; iterative := false; n_runs := 1 |}
    else if decide (k = "pga") then
      Some {| class := PGA; optim := true; iterative := true; n_runs := n |}
    else if decide (k = "bsa") then
      Some {| class := BSA; optim := true; iterative := false; n_runs := n |}
    else if decide (k = "horopca") then
      Some {| class := HoroPCA; optim := true; iterative := false; n_runs := n |}
    else None.
Proof.
  unfold pca_models. cbn [list_to_map foldr fst snd].
  rewrite !lookup_insert, lookup_empty.
  repeat (case_decide; simplify_eq; try reflexivity).
Qed.

Lemma aggregate_run l e w :
  aggregate {| metrics := Some (MetricsList l); embeddings := e |} w =
    ([Call_aggregate_metrics l],
     inr ({| metrics := Some (MetricsDict (aggregate_metrics l)); embeddings := e |}, w)).
Proof. reflexivity. Qed.

Lemma reduce_pca_run cfg mp x l0 e0 w :
  pca_models (cfg_n_runs cfg) !! model_type cfg = Some mp ->
  reduce cfg x {| metrics := Some (MetricsList l0); embeddings := Some e0 |} w =
    let '(models, w') := fitted_models cfg mp x (range (n_runs mp)) w in
    let ms := l0 ++ map (fun m => pca_compute_metrics m x) models in
    (concat (replicate (range (n_runs mp)) (run_events cfg mp x))
       ++ [Call_aggregate_metrics ms],
     inr ({| metrics := Some (MetricsDict (aggregate_metrics ms));
             embeddings := Some (last_embedding e0 x models) |}, w')).
Proof.
  intros Hk. unfold reduce. rewrite Hk.
  pose proof (fit_loop_run cfg mp x (range (n_runs mp)) l0 e0 w) as Hloop.
  destruct (fitted_models cfg mp x (range (n_runs mp)) w) as [models w'].
  erewrite bind_ok by exact Hloop.
  rewrite aggregate_run. reflexivity.
Qed.

Lemma reduce_hmds_run cfg x m0 d w :
  pca_models (cfg_n_runs cfg) !! model_type cfg = None ->
  let x_proj := hyperboloid_to_poincare
                  (hyperboloid_mds (pairwise_distance x) (n_components cfg)) in
  reduce cfg x {| metrics := m0; embeddings := Some (EmbDict d) |} w =
    (hmds_events cfg x,
     inr ({| metrics := Some (MetricsDict (compute_metrics x x_proj));
             embeddings := Some (EmbDict (<["hMDS" := x_proj]> d)) |}, w)).
Proof. intros Hk. unfold reduce. rewrite Hk. reflexivity. Qed.

Lemma report_run cfg m e w :
  report cfg {| metrics := Some (MetricsDict m); embeddings := e |} w =
    (report_events cfg m, inr (MetricsDict m, w)).
Proof.
  unfold report, report_events, mbind, M_bind, logging_info, call. cbn.
  rewrite log_each_run. cbn. rewrite app_nil_r. reflexivity.
Qed.

(** The reduction block of main.ipynb's [run] starts from unbound locals
    and raises on its first read of one of them. *)
Lemma reduce_unbound_raises cfg x w :
  exists name,
    outcome_of (reduce cfg x {| metrics := None; embeddings := None |} w)
      = inl (UnboundLocalError name).
Proof.
  unfold reduce.
  destruct (pca_models (cfg_n_runs cfg) !! model_type cfg) as [mp |].
  - destruct (range (n_runs mp)) as [| n]; cbn [for_range].
    + exists "metrics". reflexivity.
    + exists "metrics". unfold fit_once, mbind, M_bind, call_st, call. cbn.
      destruct (pca_new _ _ _ _ _ w) as [m0 w1]. cbn.
      destruct (pca_fit _ _ _ _ w1) as [m1 w2]. reflexivity.
  - exists "embeddings". reflexivity.
Qed.

Lemma reduce_unbound_first_run cfg mp x w :
  pca_models (cfg_n_runs cfg) !! model_type cfg = Some mp ->
  1 <= n_runs mp ->
  reduce cfg x {| metrics := None; embeddings := None |} w =
    ([Call_pca_new (class mp) (dim cfg) (n_components cfg) (lr cfg) 500;
      Call_fit (class mp) x (iterative mp) (optim mp)],
     inl (UnboundLocalError "metrics")).
Proof.
  intros Hk Hn. unfold reduce. rewrite Hk.
  destruct (range (n_runs mp)) as [| n] eqn:Hr; [unfold range in Hr; lia |].
  cbn [for_range]. unfold fit_once, mbind, M_bind, call_st, call. cbn.
  destruct (pca_new _ _ _ _ _ w) as [m0 w1]. cbn.
  destruct (pca_fit _ _ _ _ w1) as [m1 w2]. reflexivity.
Qed.

Lemma emits_reduce (P : event -> Prop) cfg x fr :
  (forall l, is_centering (Log l) = false -> P (Log l)) ->
  (forall c d n, P (Call_pca_new c d n (lr cfg) 500)) ->
  (forall e, match e with
             | Log _ | Call_pca_new _ _ _ _ _ => True
             | Call_fit _ _ _ _ | Call_model_compute_metrics _ _
             | Call_map_to_ball _ _ | Call_aggregate_metrics _
             | Call_from_poincare _ | Call_hyperboloid_distance _ _
             | Call_pairwise_distance _ | Call_mds _ _ | Call_to_poincare _
             | Call_compute_metrics _ _ | Call_format_metrics _ _ => P e
             | _ => True
             end) ->
  emits P (reduce cfg x fr).
Proof.
  intros Hlog Hnew Hrest. unfold reduce.
  destruct (pca_models (cfg_n_runs cfg) !! model_type cfg) as [mp |].
  - apply emits_bind.
    + apply emits_for_range. intros fr'. unfold fit_once.
      apply emits_bind; [apply emits_call_st, Hnew | intros m0].
      apply emits_bind; [apply emits_call_st, (Hrest (Call_fit _ _ _ _)) | intros m1].
      apply emits_bind; [apply emits_load_local | intros ms].
      apply emits_bind; [destruct ms; [apply emits_ret | apply emits_raise] | intros l].
      apply emits_bind;
        [apply emits_call, (Hrest (Call_model_compute_metrics _ _)) | intros m].
      apply emits_bind; [apply emits_call, (Hrest (Call_map_to_ball _ _)) | intros e].
      apply emits_ret.
    + intros fr'. unfold aggregate.
      apply emits_bind; [apply emits_load_local | intros ms].
      destruct ms; [| apply emits_raise].
      apply emits_bind; [apply emits_call, (Hrest (Call_aggregate_metrics _)) | intros a].
      apply emits_ret.
  - unfold hmds_baseline.
    apply emits_bind; [apply emits_call, Hlog; reflexivity | intros _].
    apply emits_bind; [apply emits_call, (Hrest (Call_from_poincare _)) | intros ?].
    apply emits_bind; [apply emits_call, (Hrest (Call_hyperboloid_distance _ _)) | intros ?].
    apply emits_bind; [apply emits_call, (Hrest (Call_pairwise_distance _)) | intros ?].
    apply emits_bind; [apply emits_call, (Hrest (Call_mds _ _)) | intros ?].
    apply emits_bind; [apply emits_call, (Hrest (Call_to_poincare _)) | intros ?].
    apply emits_bind; [apply emits_load_local | intros emb].
    apply emits_bind; [destruct emb; [apply emits_ret | apply emits_raise] | intros ?].
    apply emits_bind; [apply emits_call, (Hrest (Call_compute_metrics _ _)) | intros ?].
    apply emits_ret.
Qed.

Lemma emits_report (P : event -> Prop) cfg fr :
  (forall l, is_centering (Log l) = false -> P (Log l)) ->
  (forall m names, P (Call_format_metrics m names)) ->
  emits P (report cfg fr).
Proof.
  intros Hlog Hfmt. unfold report.
  apply emits_bind; [apply emits_call, Hlog; reflexivity | intros _].
  apply emits_bind; [apply emits_call, Hlog; reflexivity | intros _].
  apply emits_bind; [apply emits_load_local | intros ms].
  destruct ms; [apply emits_raise |].
  apply emits_bind; [apply emits_call, Hfmt | intros results].
  apply emits_bind; [apply emits_log_each; intros; apply Hlog; reflexivity | intros _].
  apply emits_ret.
Qed.

Lemma emits_center (P : event -> Prop) d graph_dist z z_dist :
  (forall l, P (Log l)) ->
  P (Call_avg_distortion graph_dist z_dist) ->
  P (Call_Frechet 0.01%Q 0.00001%Q 5000) ->
  P (Call_frechet_mean z true) ->
  (forall mu, P (Call_reflect_at_zero z mu)) ->
  emits P (center d graph_dist z z_dist).
Proof.
  intros Hlog Hd Hf Hm Hr. unfold center.
  apply emits_bind; [apply emits_call, Hd | intros ?].
  apply emits_bind; [apply emits_call, Hlog | intros _].
  apply emits_bind; [apply emits_call, Hlog | intros _].
  apply emits_bind; [apply emits_call, Hf | intros f].
  apply emits_bind; [apply emits_call, Hm | intros r].
  apply emits_bind.
  { unfold unpack2. destruct r as [| v1 [| v2 [| v3 r]]];
      first [apply emits_ret | apply emits_raise]. }
  intros [mu_ref flag].
  apply emits_bind; [apply emits_call, Hlog | intros _].
  apply emits_bind.
  { destruct mu_ref; first [apply emits_ret | apply emits_raise]. }
  intros mu. apply emits_call, Hr.
Qed.

Lemma emits_embedding (P : event -> Prop) graph ds d us sc :
  (forall l, P (Log l)) ->
  (forall e, match e with
             | Call_pick_root _ | Call_sarkar _ _ _ _ | Call_load_embeddings _ _
             | Call_pairwise_distance _ => P e
             | _ => True
             end) ->
  emits P (get_hyperbolic_embeddings graph ds d us sc).
Proof.
  intros Hlog Hrest. unfold get_hyperbolic_embeddings. destruct us.
  - apply emits_bind; [apply emits_call, Hlog | intros _].
    apply emits_bind; [apply emits_call, (Hrest (Call_pick_root _)) | intros ?].
    apply emits_bind; [apply emits_call, (Hrest (Call_sarkar _ _ _ _)) | intros ?].
    apply emits_bind; [apply emits_call, (Hrest (Call_pairwise_distance _)) | intros ?].
    apply emits_ret.
  - apply emits_bind; [apply emits_call, Hlog | intros _].
    destruct (bool_decide (d ∈ [2; 10; 50])); [| apply emits_raise].
    apply emits_bind; [apply emits_call, (Hrest (Call_load_embeddings _ _)) | intros ?].
    apply emits_bind; [apply emits_call, (Hrest (Call_pairwise_distance _)) | intros ?].
    apply emits_ret.
Qed.

(** ** Embedding step *)

(** C8. The Sarkar path of [get_hyperbolic_embeddings] never looks at the
    dimension: whatever [dim] is, it picks a root, runs the Sarkar
    construction in that dimension and returns the embedding with its
    pairwise distances divided by the scale, without raising.  The pretrained
    path of the same function is the one that tests the dimension against
    2, 10, 50 and raises when the test fails. *)
Theorem sarkar_path_accepts_any_dim :
  forall (graph : Graph) (dataset : string) (dim : Z) (sarkar_scale : Q) (w : World),
    let root := pick_root graph in
    let z := sarkar graph sarkar_scale root dim in
    get_hyperbolic_embeddings graph dataset dim true sarkar_scale w =
      ([Log LogUsingSarkar; Call_pick_root graph;
        Call_sarkar graph sarkar_scale root dim; Call_pairwise_distance z],
       inr ((z, tensor_div (pairwise_distance z) sarkar_scale), w))
    /\ get_hyperbolic_embeddings graph dataset dim false sarkar_scale w =
       (if bool_decide (dim ∈ [2; 10; 50]) then
          let z' := load_embeddings dataset dim in
          ([Log LogUsingOptimization; Call_load_embeddings dataset dim;
            Call_pairwise_distance z'],
           inr ((z', pairwise_distance z'), w))
        else
          ([Log LogUsingOptimization],
           inl (AssertionError
                  "pretrained embeddings are only for 2, 10 and 50 dimensions"))).
Proof.
  intros graph ds d sc w root z. split.
  - reflexivity.
  - unfold get_hyperbolic_embeddings.
    destruct (bool_decide (d ∈ [2; 10; 50])); reflexivity.
Qed.

(** C3. With pretrained embeddings requested and a dimension other than
    2, 10 and 50, the run stops with the assertion error of the embedding
    step.  The trace shows what ran before it: the graph was loaded and its
    shortest paths computed, the choice of the pretrained path was logged,
    and nothing else; no embedding was loaded, no distance, distortion or
    mean was computed.  Cells 4 to 9 of main.ipynb stop at the same
    assertion. *)
Theorem pretrained_dim_fails_fast :
  forall (cfg : config) (w : World),
    use_sarkar cfg = false ->
    dim cfg ∉ [2; 10; 50] ->
    let graph := load_graph (dataset cfg) in
    let nodelist := arange (number_of_nodes graph) in
    let err := AssertionError "pretrained embeddings are only for 2, 10 and 50 dimensions" in
    Main2.run cfg w =
      ([Log (LogRunningExperiments (dataset cfg));
        Call_load_graph (dataset cfg); Call_floyd_warshall graph nodelist;
        Log LogUsingOptimization],
       inl err)
    /\ Main.centering_cells cfg w =
      ([Log (LogRunningExperiments (dataset cfg)); Call_plt_figure;
        Call_load_graph (dataset cfg); Call_floyd_warshall graph nodelist;
        Log (LogLoaded (dataset cfg) (number_of_nodes graph));
        Log LogUsingOptimization],
       inl err)
    /\ outcome_of (Main.notebook cfg w) = inl err.
Proof.
  intros cfg w Hs Hd graph nodelist err.
  assert (Hemb : get_hyperbolic_embeddings graph (dataset cfg) (dim cfg)
                   (use_sarkar cfg) (sarkar_scale cfg) w
                 = ([Log LogUsingOptimization], inl err)).
  { rewrite embedding_run, Hs. cbn [orb].
    rewrite bool_decide_eq_false_2 by exact Hd. reflexivity. }
  assert (Hcells : Main.centering_cells cfg w =
      ([Log (LogRunningExperiments (dataset cfg)); Call_plt_figure;
        Call_load_graph (dataset cfg); Call_floyd_warshall graph nodelist;
        Log (LogLoaded (dataset cfg) (number_of_nodes graph));
        Log LogUsingOptimization], inl err)).
  { unfold Main.centering_cells.
    erewrite bind_ok by reflexivity. erewrite bind_ok by reflexivity.
    erewrite bind_ok by apply load_graph_data_run.
    cbn [trace_of outcome_of fst snd].
    erewrite bind_ok by reflexivity.
    erewrite bind_raise by exact Hemb. reflexivity. }
  split; [| split].
  - unfold Main2.run.
    erewrite bind_ok by reflexivity.
    erewrite bind_ok by apply load_graph_data_run.
    cbn [trace_of outcome_of fst snd].
    erewrite bind_raise by exact Hemb. reflexivity.
  - exact Hcells.
  - unfold Main.notebook. erewrite bind_raise by exact Hcells. reflexivity.
Qed.

(** ** Hyperparameters *)

Lemma not_centering_filter (t : list event) :
  Forall (fun e => is_centering e = false) t -> filter is_centering t = [].
Proof.
  induction 1 as [| e t He _ IH]; [reflexivity |].
  cbn. rewrite He. cbn. exact IH.
Qed.

Lemma emits_run_hyperparameters cfg :
  emits (hyperparameters (lr cfg)) (Main2.run cfg).
Proof.
  unfold Main2.run.
  apply emits_bind; [apply emits_call; exact I | intros _].
  apply emits_bind.
  { unfold load_graph_data.
    apply emits_bind; [apply emits_call; exact I | intros g].
    apply emits_bind; [apply emits_call; exact I | intros gd].
    apply emits_ret. }
  intros [graph graph_dist].
  apply emits_bind.
  { apply emits_embedding; [intros; exact I | intros []; exact I]. }
  intros [z z_dist].
  apply emits_bind.
  { apply emits_center; cbn; auto. }
  intros x.
  apply emits_bind.
  { apply emits_reduce; [intros; exact I | cbn; auto | intros []; exact I]. }
  intros fr.
  apply emits_bind; [apply emits_report; intros; exact I | intros ms].
  apply emits_ret.
Qed.

Lemma emits_notebook_hyperparameters g :
  emits (hyperparameters (lr default_config)) (Main.notebook g).
Proof.
  unfold Main.notebook.
  apply emits_bind.
  { unfold Main.centering_cells.
    apply emits_bind; [apply emits_call; exact I | intros _].
    apply emits_bind; [apply emits_call; exact I | intros _].
    apply emits_bind.
    { unfold load_graph_data.
      apply emits_bind; [apply emits_call; exact I | intros gr].
      apply emits_bind; [apply emits_call; exact I | intros gd].
      apply emits_ret. }
    intros [graph graph_dist].
    apply emits_bind; [apply emits_call; exact I | intros _].
    apply emits_bind.
    { apply emits_embedding; [intros; exact I | intros []; exact I]. }
    intros [z z_dist].
    apply emits_center; cbn; auto. }
  intros x.
  apply emits_bind; [apply emits_call; exact I | intros _].
  apply emits_bind; [apply emits_call; exact I | intros d].
  unfold Main.run.
  apply emits_bind.
  { apply emits_reduce; [intros; exact I | cbn; auto | intros []; exact I]. }
  intros fr.
  apply emits_bind; [apply emits_report; intros; exact I | intros ms].
  apply emits_ret.
Qed.

Lemma run_tail_not_centering {A} cfg x fr (k : metrics_obj -> M A) :
  (forall ms, emits (fun e => is_centering e = false) (k ms)) ->
  emits (fun e => is_centering e = false)
        (reduce cfg x fr ≫= (fun fr' => report cfg fr' ≫= k)).
Proof.
  intros Hk.
  apply emits_bind.
  { apply emits_reduce; [intros l Hl; exact Hl | intros; reflexivity
                        | intros []; reflexivity]. }
  intros fr'.
  apply emits_bind;
    [apply emits_report; [intros l Hl; exact Hl | intros; reflexivity] | exact Hk].
Qed.

(** C9. In every run the Frechet object is built with lr = 1e-2,
    eps = 1e-5 and max_steps = 5000, and every model is constructed with
    max_steps = 500 and the learning rate of the call (main.ipynb calls
    [run()] with its defaults).  Changing the learning rate of a
    configuration leaves the centring step untouched: the Frechet object,
    the input of the mean, the reported flag and the mean handed to the
    reflection are the same. *)
Theorem hyperparameters_fixed :
  forall (cfg : config) (w : World),
    Forall (hyperparameters (lr cfg)) (trace_of (Main2.run cfg w))
    /\ Forall (hyperparameters (lr default_config)) (trace_of (Main.notebook cfg w))
    /\ (forall l : Q,
          filter is_centering (trace_of (Main2.run (with_lr l cfg) w))
          = filter is_centering (trace_of (Main2.run cfg w))).
Proof.
  intros cfg w. split; [| split].
  - apply emits_run_hyperparameters.
  - apply emits_notebook_hyperparameters.
  - intros l. unfold Main2.run.
    cbn [with_lr dataset dim use_sarkar sarkar_scale].
    rewrite !(bind_trace (logging_info _)). cbn [outcome_of logging_info call snd].
    rewrite !(bind_trace (load_graph_data _)), load_graph_data_run.
    cbn [trace_of outcome_of fst snd].
    rewrite !(bind_trace (get_hyperbolic_embeddings _ _ _ _ _)).
    destruct (get_hyperbolic_embeddings _ _ _ _ _ w) as [t1 [e | [[z z_dist] w1]]];
      cbn [trace_of outcome_of fst snd]; [reflexivity |].
    rewrite !(bind_trace (center _ _ _ _)).
    destruct (center (dim cfg) _ z z_dist w1) as [t2 [e | [x w2]]];
      cbn [trace_of outcome_of fst snd]; [reflexivity |].
    rewrite !filter_app.
    rewrite !(not_centering_filter (trace_of ((reduce _ _ _ ≫= _) _)));
      [reflexivity | |];
      apply run_tail_not_centering; intros ms; apply emits_ret.
Qed.

(** ** The stages of a run *)

Lemma centering_run cfg mu flag w (k : Tensor -> M (metrics_obj * config_dict)) :
  use_sarkar cfg = true \/ dim cfg ∈ [2; 10; 50] ->
  Frechet_mean 0.01%Q 0.00001%Q 5000
      (fst (embedding cfg (load_graph (dataset cfg)))) true = [PTensor mu; flag] ->
  let x := reflect_at_zero (fst (embedding cfg (load_graph (dataset cfg)))) mu in
  ('(graph, graph_dist) ← load_graph_data (dataset cfg);
   '(z, z_dist) ← get_hyperbolic_embeddings graph (dataset cfg) (dim cfg)
                     (use_sarkar cfg) (sarkar_scale cfg);
   x ← center (dim cfg) graph_dist z z_dist;
   k x) w
  = (load_events cfg ++ centering_trace cfg mu flag ++ trace_of (k x w),
     outcome_of (k x w)).
Proof.
  intros Hok Hmean x.
  erewrite bind_ok by apply load_graph_data_run.
  cbn [trace_of outcome_of fst snd].
  set (graph := load_graph (dataset cfg)) in *.
  assert (Hemb : get_hyperbolic_embeddings graph (dataset cfg) (dim cfg)
                   (use_sarkar cfg) (sarkar_scale cfg) w
                 = (embedding_events cfg graph, inr (embedding cfg graph, w))).
  { rewrite embedding_run.
    destruct Hok as [-> | Hd]; [reflexivity |].
    rewrite (bool_decide_eq_true_2 _ Hd), orb_true_r. reflexivity. }
  erewrite bind_ok by exact Hemb.
  destruct (embedding cfg graph) as [z z_dist] eqn:He.
  cbn [trace_of outcome_of fst snd] in *.
  erewrite bind_ok by (apply center_run; exact Hmean).
  cbn [trace_of outcome_of fst snd].
  unfold centering_trace, load_events. fold graph. rewrite He. cbn [fst snd].
  rewrite <- !app_assoc. reflexivity.
Qed.

Lemma reduce_report_run cfg x w :
  let fr := {| metrics := Some (MetricsList []); embeddings := Some (EmbDict ∅) |} in
  (fr ← reduce cfg x fr;
   metrics ← report cfg fr;
   mret (metrics, config_dict_of cfg)) w
  = let '(t, m, w') := reduction cfg x w in
    (t ++ report_events cfg m, inr ((MetricsDict m, config_dict_of cfg), w')).
Proof.
  intros fr. unfold reduction.
  destruct (pca_models (cfg_n_runs cfg) !! model_type cfg) as [mp |] eqn:Hk.
  - pose proof (reduce_pca_run cfg mp x [] (EmbDict ∅) w Hk) as Hred.
    destruct (fitted_models cfg mp x (range (n_runs mp)) w) as [models w'].
    cbn [app] in Hred.
    erewrite bind_ok by exact Hred.
    erewrite bind_ok by apply report_run.
    cbn. rewrite app_nil_r. reflexivity.
  - erewrite bind_ok by (apply reduce_hmds_run; exact Hk).
    erewrite bind_ok by apply report_run.
    cbn. rewrite app_nil_r. reflexivity.
Qed.

(** C1, as the code has it.  Whenever the embedding step passes (Sarkar
    requested, or a dimension among 2, 10, 50) and the mean comes back as a
    pair [(mu, flag)], [run] of main2.ipynb goes through its stages in this
    order: graph and shortest paths, embedding, distortion, Frechet mean,
    reflection of the points at the mean, reduction of the reflected points,
    report.  The reduction is the one of [reduction]: for a model type of
    the table, the fits of that single class, each followed by its metrics,
    and their aggregation; for any other model type the hMDS baseline, with
    no PCA class fitted.  Cells 4 to 9 of main.ipynb go through the load and
    centring stages in the same order. *)
Theorem run_stage_order :
  forall (cfg : config) (w : World) (mu : Tensor) (flag : pyobj Tensor),
    let z := fst (embedding cfg (load_graph (dataset cfg))) in
    let x := reflect_at_zero z mu in
    use_sarkar cfg = true \/ dim cfg ∈ [2; 10; 50] ->
    Frechet_mean 0.01%Q 0.00001%Q 5000 z true = [PTensor mu; flag] ->
    Main2.run cfg w =
      (let '(t, m, w') := reduction cfg x w in
       (Log (LogRunningExperiments (dataset cfg))
          :: (load_events cfg ++ centering_trace cfg mu flag
              ++ t ++ report_events cfg m),
        inr ((MetricsDict m, config_dict_of cfg), w')))
    /\ Main.centering_cells cfg w =
       ([Log (LogRunningExperiments (dataset cfg)); Call_plt_figure]
          ++ load_events cfg
          ++ [Log (LogLoaded (dataset cfg) (number_of_nodes (load_graph (dataset cfg))))]
          ++ centering_trace cfg mu flag,
        inr (x, w)).
Proof.
  intros cfg w mu flag z x Hok Hmean. split.
  - unfold Main2.run.
    erewrite bind_ok by reflexivity.
    cbn [trace_of outcome_of fst snd app].
    rewrite (centering_run cfg mu flag w _ Hok Hmean).
    fold z. fold x. rewrite reduce_report_run.
    destruct (reduction cfg x w) as [[t m] w'].
    reflexivity.
  - unfold Main.centering_cells.
    erewrite bind_ok by reflexivity. erewrite bind_ok by reflexivity.
    erewrite bind_ok by apply load_graph_data_run.
    cbn [trace_of outcome_of fst snd].
    erewrite bind_ok by reflexivity.
    set (graph := load_graph (dataset cfg)) in *.
    assert (Hemb : get_hyperbolic_embeddings graph (dataset cfg) (dim cfg)
                     (use_sarkar cfg) (sarkar_scale cfg) w
                   = (embedding_events cfg graph, inr (embedding cfg graph, w))).
    { rewrite embedding_run.
      destruct Hok as [-> | Hd]; [reflexivity |].
      rewrite (bool_decide_eq_true_2 _ Hd), orb_true_r. reflexivity. }
    cbn [trace_of outcome_of fst snd].
    erewrite bind_ok by exact Hemb.
    subst z x. fold graph in Hmean |- *.
    unfold centering_trace. fold graph.
    destruct (embedding cfg graph) as [z z_dist] eqn:He.
    cbn [trace_of outcome_of fst snd] in *.
    rewrite (center_run _ _ _ _ mu flag w Hmean).
    reflexivity.
Qed.

(** ** The fitting loop *)

Lemma stochastic_entry cfg :
  model_type cfg ∈ ["pga"; "bsa"; "horopca"] ->
  exists mp,
    pca_models (cfg_n_runs cfg) !! model_type cfg = Some mp
    /\ n_runs mp = cfg_n_runs cfg /\ optim mp = true
    /\ class mp ∈ [PGA; BSA; HoroPCA].
Proof.
  intros Hk. rewrite pca_models_lookup.
  repeat (apply elem_of_cons in Hk as [-> | Hk]);
    [| | | apply elem_of_nil in Hk; contradiction];
    cbn; eexists; (split; [reflexivity |]); cbn; repeat split; set_solver.
Qed.

Lemma closed_form_entry cfg :
  model_type cfg ∈ ["pca"; "tpca"] ->
  exists mp,
    pca_models (cfg_n_runs cfg) !! model_type cfg = Some mp
    /\ n_runs mp = 1 /\ optim mp = false /\ iterative mp = false
    /\ class mp ∈ [EucPCA; TangentPCA].
Proof.
  intros Hk. rewrite pca_models_lookup.
  repeat (apply elem_of_cons in Hk as [-> | Hk]);
    [| | apply elem_of_nil in Hk; contradiction];
    cbn; eexists; (split; [reflexivity |]); cbn; repeat split; set_solver.
Qed.

Lemma fitted_models_length cfg mp x n w :
  length (fst (fitted_models cfg mp x n w)) = n.
Proof.
  revert w. induction n as [| n IH]; intros w; [reflexivity |].
  cbn [fitted_models].
  destruct (pca_new _ _ _ _ _ w) as [m0 w1].
  destruct (pca_fit _ _ _ _ w1) as [m1 w2].
  specialize (IH w2). destruct (fitted_models cfg mp x n w2) as [ms w'].
  cbn in *. rewrite IH. reflexivity.
Qed.

Lemma fits_of_runs cfg mp x n :
  filter is_fit (concat (replicate n (run_events cfg mp x)))
  = replicate n (Call_fit (class mp) x (iterative mp) (optim mp)).
Proof.
  induction n as [| n IH]; [reflexivity |].
  cbn [replicate concat]. rewrite filter_app, IH. reflexivity.
Qed.

(** In main2.ipynb the loop does what it is written for: from the frame
    [run] sets up, a model type of the table is fitted [range(n_runs)]
    times, each time on a model constructed in that iteration; the metrics
    of every run reach [aggregate_metrics] in order, and [embeddings] ends
    as the projection of the last model. *)
Lemma main2_loop cfg mp x w :
  pca_models (cfg_n_runs cfg) !! model_type cfg = Some mp ->
  let models := fst (fitted_models cfg mp x (range (n_runs mp)) w) in
  let ms := map (fun m => pca_compute_metrics m x) models in
  let r := reduce cfg x {| metrics := Some (MetricsList []);
                           embeddings := Some (EmbDict ∅) |} w in
  length models = range (n_runs mp)
  /\ filter is_fit (trace_of r)
     = replicate (range (n_runs mp)) (Call_fit (class mp) x (iterative mp) (optim mp))
  /\ filter is_aggregate (trace_of r) = [Call_aggregate_metrics ms]
  /\ exists w',
       outcome_of r =
         inr ({| metrics := Some (MetricsDict (aggregate_metrics ms));
                 embeddings := Some (last_embedding (EmbDict ∅) x models) |}, w').
Proof.
  intros Hk models ms r. subst r.
  rewrite (reduce_pca_run cfg mp x [] (EmbDict ∅) w Hk).
  subst ms models.
  pose proof (fitted_models_length cfg mp x (range (n_runs mp)) w) as Hlen.
  destruct (fitted_models cfg mp x (range (n_runs mp)) w) as [models w'].
  cbn [fst snd trace_of outcome_of app] in *.
  split; [exact Hlen |]. split; [| split].
  - rewrite filter_app, fits_of_runs. cbn. apply app_nil_r.
  - rewrite filter_app.
    assert (Hnone : forall n, filter is_aggregate
                      (concat (replicate n (run_events cfg mp x))) = []).
    { induction n as [| n IH]; [reflexivity |].
      cbn [replicate concat]. rewrite filter_app, IH. reflexivity. }
    rewrite Hnone. reflexivity.
  - exists w'. reflexivity.
Qed.

(** [run] of main.ipynb never returns: whatever the arguments, it stops at
    its first read of [metrics] or [embeddings], which are locals of the
    function that nothing has bound. *)
Lemma main_run_always_raises x cfg w :
  exists name, outcome_of (Main.run x cfg w) = inl (UnboundLocalError name).
Proof.
  destruct (reduce_unbound_raises cfg x w) as [name Hr].
  exists name. unfold Main.run.
  destruct (reduce cfg x _ w) as [t r] eqn:Hred. cbn in Hr. subst r.
  erewrite bind_raise by exact Hred. reflexivity.
Qed.

(** C5, on main.ipynb.  For a stochastic variant and n_runs of at least 2,
    [run] of main.ipynb fits one model and stops: the read of the unbound
    local [metrics] in [metrics.append] raises before the metrics of the
    first run are computed, so one fit is made instead of n_runs and nothing
    is aggregated. *)
Theorem main_run_stops_after_first_fit :
  forall (x : Tensor) (cfg : config) (w : World),
    model_type cfg ∈ ["pga"; "bsa"; "horopca"] ->
    2 <= cfg_n_runs cfg ->
    length (filter is_fit (trace_of (Main.run x cfg w))) = 1%nat
    /\ filter is_aggregate (trace_of (Main.run x cfg w)) = []
    /\ outcome_of (Main.run x cfg w) = inl (UnboundLocalError "metrics").
Proof.
  intros x cfg w Hk Hn.
  destruct (stochastic_entry cfg Hk) as (mp & Hmp & Hruns & _).
  assert (Hone : 1 <= n_runs mp) by lia.
  unfold Main.run.
  erewrite bind_raise by (apply reduce_unbound_first_run; eassumption).
  repeat split.
Qed.

(** C10, on main.ipynb.  [run()] as cell 11 calls it constructs and fits
    the first HoroPCA model and raises at [metrics.append]: no metrics are
    accumulated or aggregated, and [embeddings] is never assigned. *)
Theorem main_run_default_raises :
  forall (x : Tensor) (w : World),
    Main.run x default_config w =
      ([Call_pca_new HoroPCA 10 2 0.05%Q 500; Call_fit HoroPCA x false true],
       inl (UnboundLocalError "metrics")).
Proof.
  intros x w. unfold Main.run.
  erewrite bind_raise; [reflexivity |].
  apply (reduce_unbound_first_run default_config
           {| class := HoroPCA; optim := true; iterative := false; n_runs := 5 |}).
  - rewrite pca_models_lookup. reflexivity.
  - cbn. lia.
Qed.

End PipelineFacts.

(** * The Frechet-mean estimator and its caller *)

Section EstimatorFacts.
Variable Point : Type.
Variable init : Point -> Point.
Variable step : Q -> Point -> Point -> Point.
Variable below : Q -> Point -> Point -> bool.

Abbreviation iterate := (FrechetSpec.iterate Point step below).
Abbreviation candidate := (FrechetSpec.candidate Point init step).

(** The budget runs out exactly when none of the steps it allows is
    small; the estimator then stands at the last candidate. *)
Lemma iterate_exhausted lr eps x fuel :
  forall k j,
    FrechetSpec.status Point (iterate lr eps x fuel k (candidate lr x j))
      = FrechetSpec.MaxStepsReached
    <-> (forall n, (n < fuel)%nat ->
           below eps (candidate lr x (j + n)) (candidate lr x (S (j + n))) = false).
Proof.
  induction fuel as [| fuel IH]; intros k j; cbn [FrechetSpec.iterate].
  - split; [intros _ n Hn; lia | reflexivity].
  - change (step lr x (candidate lr x j)) with (candidate lr x (S j)).
    destruct (below eps (candidate lr x j) (candidate lr x (S j))) eqn:Hb;
      cbn [FrechetSpec.status].
    + split; [discriminate |].
      intros H. specialize (H 0%nat ltac:(lia)).
      rewrite Nat.add_0_r in H. congruence.
    + rewrite IH. split.
      * intros H n Hn. destruct n as [| n].
        -- rewrite Nat.add_0_r. exact Hb.
        -- specialize (H n ltac:(lia)).
           rewrite <- !plus_n_Sm. exact H.
      * intros H n Hn. specialize (H (S n) ltac:(lia)).
        rewrite <- !plus_n_Sm in H. exact H.
Qed.

Lemma iterate_exhausted_result lr eps x fuel :
  forall k j,
    FrechetSpec.status Point (iterate lr eps x fuel k (candidate lr x j))
      = FrechetSpec.MaxStepsReached ->
    FrechetSpec.mean_point Point (iterate lr eps x fuel k (candidate lr x j))
      = candidate lr x (j + fuel)
    /\ FrechetSpec.iterations Point (iterate lr eps x fuel k (candidate lr x j))
      = k + Z.of_nat fuel.
Proof.
  induction fuel as [| fuel IH]; intros k j; cbn [FrechetSpec.iterate].
  - intros _. cbn. rewrite Nat.add_0_r. split; [reflexivity | lia].
  - change (step lr x (candidate lr x j)) with (candidate lr x (S j)).
    destruct (below eps (candidate lr x j) (candidate lr x (S j)));
      cbn [FrechetSpec.status FrechetSpec.mean_point FrechetSpec.iterations].
    + discriminate.
    + intros H. destruct (IH _ _ H) as [Hm Hi].
      rewrite Hm, Hi. rewrite <- plus_n_Sm. split; [reflexivity | lia].
Qed.

(** The iteration count stays within the budget. *)
Lemma iterate_count lr eps x fuel :
  forall k mu,
    k <= FrechetSpec.iterations Point (iterate lr eps x fuel k mu) <= k + Z.of_nat fuel.
Proof.
  induction fuel as [| fuel IH]; intros k mu; cbn [FrechetSpec.iterate].
  - cbn. lia.
  - destruct (below eps mu (step lr x mu)); cbn; [lia |].
    specialize (IH (k + 1) (step lr x mu)). lia.
Qed.

Lemma has_converged_false r :
  FrechetSpec.has_converged Point r = false
  <-> FrechetSpec.status Point r = FrechetSpec.MaxStepsReached.
Proof.
  unfold FrechetSpec.has_converged.
  destruct (FrechetSpec.status Point r); split; congruence.
Qed.

End EstimatorFacts.

Section CallerFacts.
Context {B : Backend}.


End CallerFacts.

(** * Concrete runs *)

(** C1 does not hold for every model configuration: with the model type
    "hmds", which the notebook lists among its models, the run completes
    and no PCA class is constructed or fitted. *)
Lemma hmds_run_fits_no_pca_variant :
  let r := @Main2.run Symbolic.converging hmds_config 0%nat in
  In (model_type hmds_config) Main2.list_model
  /\ (exists v, outcome_of r = inr v)
  /\ filter is_fit (trace_of r) = []
  /\ ~ exists c d n l s, In (Call_pca_new c d n l s) (trace_of r).
Proof.
  cbv zeta. split; [| split; [| split]].
  - cbn. tauto.
  - vm_compute. eexists. reflexivity.
  - vm_compute. reflexivity.
  - intros (c & d & n & l & s & Hin). vm_compute in Hin.
    repeat (destruct Hin as [Hin | Hin]; [discriminate Hin |]).
    exact Hin.
Qed.

Lemma run_stage_order_witness :
  let z := Symbolic.smalltree in
  let mu := Symbolic.Step 0.01%Q z (Symbolic.Step 0.01%Q z (Symbolic.Start z)) in
  let x := Symbolic.Reflect z mu in
  (use_sarkar default_config = true \/ dim default_config ∈ [2; 10; 50])
  /\ @Frechet_mean Symbolic.converging 0.01%Q 0.00001%Q 5000 z true
     = [PTensor mu; PBool true]
  /\ @Main2.run Symbolic.converging default_config 0%nat =
      (let '(t, m, w') := @reduction Symbolic.converging default_config x 0%nat in
       (Log (LogRunningExperiments "smalltree")
          :: (@load_events Symbolic.converging default_config
              ++ @centering_trace Symbolic.converging default_config mu (PBool true)
              ++ t ++ @report_events Symbolic.converging default_config m),
        inr ((MetricsDict m, config_dict_of default_config), w'))).
Proof.
  intros z mu x.
  assert (Hd : use_sarkar default_config = true \/ dim default_config ∈ [2; 10; 50]).
  { right. cbn. set_solver. }
  assert (Hm : @Frechet_mean Symbolic.converging 0.01%Q 0.00001%Q 5000 z true
               = [PTensor mu; PBool true]) by reflexivity.
  split; [exact Hd |]. split; [exact Hm |].
  exact (proj1 (@run_stage_order Symbolic.converging default_config 0%nat mu
                  (PBool true) Hd Hm)).
Defined.

Lemma pretrained_dim_fails_fast_witness :
  use_sarkar dim3_config = false
  /\ (dim dim3_config ∉ [2; 10; 50])
  /\ @Main2.run Symbolic.converging dim3_config 0%nat =
      ([Log (LogRunningExperiments "smalltree"); Call_load_graph "smalltree";
        Call_floyd_warshall (B := Symbolic.converging) "smalltree" (arange 9);
        Log LogUsingOptimization],
       inl (AssertionError "pretrained embeddings are only for 2, 10 and 50 dimensions")).
Proof.
  assert (Hd : dim dim3_config ∉ [2; 10; 50]).
  { cbn. intros H. repeat (apply elem_of_cons in H as [H | H]; [lia |]).
    apply elem_of_nil in H. exact H. }
  split; [reflexivity |]. split; [exact Hd |].
  exact (proj1 (@pretrained_dim_fails_fast Symbolic.converging dim3_config 0%nat
                  eq_refl Hd)).
Defined.



Lemma main_run_stops_after_first_fit_witness :
  model_type default_config ∈ ["pga"; "bsa"; "horopca"]
  /\ 2 <= cfg_n_runs default_config
  /\ length (filter is_fit
               (trace_of (@Main.run Symbolic.converging Symbolic.smalltree
                            default_config 0%nat))) = 1%nat
  /\ outcome_of (@Main.run Symbolic.converging Symbolic.smalltree default_config 0%nat)
     = inl (UnboundLocalError "metrics").
Proof.
  assert (Hk : model_type default_config ∈ ["pga"; "bsa"; "horopca"]).
  { cbn. set_solver. }
  assert (Hn : 2 <= cfg_n_runs default_config) by (cbn; lia).
  destruct (@main_run_stops_after_first_fit Symbolic.converging Symbolic.smalltree
              default_config 0%nat Hk Hn) as (H1 & _ & H3).
  split; [exact Hk |]. split; [exact Hn |]. split; [exact H1 | exact H3].
Defined.

(** * Hyperbolic geometry *)

Section GeometryFacts.
Import Geometry.
Local Open Scope R_scope.

(** ** Vector algebra on coordinate lists *)

Lemma dot_comm u v : dot u v = dot v u.
Proof.
  revert v. induction u as [| a u IH]; intros [| b v]; cbn; try reflexivity.
  rewrite IH. ring.
Qed.

Lemma dot_scale_l c u v : dot (scale c u) v = c * dot u v.
Proof.
  revert v. induction u as [| a u IH]; intros [| b v]; cbn; try ring.
  unfold scale in IH. rewrite IH. ring.
Qed.

Lemma dot_scale_r c u v : dot u (scale c v) = c * dot u v.
Proof. rewrite dot_comm, dot_scale_l, dot_comm. reflexivity. Qed.

Lemma dot_opp_l u v : dot (opp u) v = - dot u v.
Proof.
  revert v. induction u as [| a u IH]; intros [| b v]; cbn; try ring.
  unfold opp in IH. rewrite IH. ring.
Qed.

Lemma dot_opp_r u v : dot u (opp v) = - dot u v.
Proof. rewrite dot_comm, dot_opp_l, dot_comm. reflexivity. Qed.

Lemma dot_add_l u v w :
  length u = length v -> dot (add u v) w = dot u w + dot v w.
Proof.
  revert v w. induction u as [| a u IH]; intros [| b v] [| c w] Hl; cbn in *;
    try ring; try discriminate.
  rewrite IH by congruence. ring.
Qed.

Lemma dot_add_r u v w :
  length v = length w -> dot u (add v w) = dot u v + dot u w.
Proof.
  intros Hl. rewrite dot_comm, dot_add_l by exact Hl.
  rewrite (dot_comm v), (dot_comm w). reflexivity.
Qed.

Lemma length_scale c u : length (scale c u) = length u.
Proof. apply length_map. Qed.

Lemma length_opp u : length (opp u) = length u.
Proof. apply length_map. Qed.

Lemma length_add u v : length u = length v -> length (add u v) = length u.
Proof.
  revert v. induction u as [| a u IH]; intros [| b v] Hl; cbn in *;
    try reflexivity; try discriminate.
  rewrite IH by congruence. reflexivity.
Qed.

Lemma length_sub u v : length u = length v -> length (sub u v) = length u.
Proof. intros Hl. unfold sub. apply length_add. rewrite length_opp. exact Hl. Qed.

Lemma scale_scale c d u : scale c (scale d u) = scale (c * d) u.
Proof.
  unfold scale. rewrite map_map. apply map_ext. intros a. ring.
Qed.

Lemma scale_one u : scale 1 u = u.
Proof.
  unfold scale. rewrite <- (map_id u) at 2. apply map_ext. intros a. ring.
Qed.

Lemma sqnorm_nonneg u : 0 <= sqnorm u.
Proof.
  unfold sqnorm. induction u as [| a u IH]; cbn; [lra |].
  pose proof (Rle_0_sqr a) as Ha. unfold Rsqr in Ha. lra.
Qed.

Lemma sqnorm_scale c u : sqnorm (scale c u) = c * c * sqnorm u.
Proof. unfold sqnorm. rewrite dot_scale_l, dot_scale_r. ring. Qed.

Lemma sqnorm_add u v :
  length u = length v ->
  sqnorm (add u v) = sqnorm u + 2 * dot u v + sqnorm v.
Proof.
  intros Hl. unfold sqnorm.
  rewrite dot_add_l by exact Hl.
  rewrite !dot_add_r by exact Hl.
  rewrite (dot_comm v u). ring.
Qed.

Lemma sqnorm_sub u v :
  length u = length v ->
  sqnorm (sub u v) = sqnorm u - 2 * dot u v + sqnorm v.
Proof.
  intros Hl. unfold sub.
  rewrite sqnorm_add by (rewrite length_opp; exact Hl).
  rewrite dot_opp_r. unfold sqnorm. rewrite dot_opp_l, dot_opp_r. ring.
Qed.

(** Two points of different norm are different points. *)
Lemma sqnorm_sub_pos u v :
  length u = length v -> sqnorm u <> sqnorm v -> 0 < sqnorm (sub u v).
Proof.
  revert v. induction u as [| a u IH]; intros [| b v] Hl Hne; cbn in *;
    try discriminate.
  - exfalso. apply Hne. reflexivity.
  - unfold sqnorm in *. cbn in *.
    fold (opp v). fold (sub u v).
    pose proof (sqnorm_nonneg (sub u v)) as Hrest. unfold sqnorm in Hrest.
    destruct (Req_dec (dot u u) (dot v v)) as [Heq | Hneq].
    + assert (Hab : a <> b) by (intros ->; apply Hne; rewrite Heq; reflexivity).
      assert (0 < (a + - b) * (a + - b)) by nra. lra.
    + specialize (IH v ltac:(congruence) Hneq).
      pose proof (Rle_0_sqr (a + - b)) as Hsq. unfold Rsqr in Hsq. lra.
Qed.

(** ** The two models *)

(** The image of a ball point lies on the upper sheet of the hyperboloid. *)
Lemma from_poincare_on_hyperboloid x :
  sqnorm x < 1 ->
  squared_norm (from_poincare x false) = -1
  /\ 0 < hd 0 (from_poincare x false).
Proof.
  intros Hx. pose proof (sqnorm_nonneg x) as H0.
  unfold squared_norm, from_poincare, minkowski_dot. cbn [hd].
  fold (sqnorm (scale (2 / (1 - sqnorm x)) x)). rewrite sqnorm_scale.
  split.
  - field. lra.
  - apply Rdiv_lt_0_compat; lra.
Qed.

(** Boundary directions go to the light cone. *)
Lemma from_poincare_ideal_null x :
  sqnorm x = 1 -> squared_norm (from_poincare x true) = 0.
Proof.
  intros Hx. unfold squared_norm, from_poincare, minkowski_dot.
  fold (sqnorm x). rewrite Hx. ring.
Qed.

Lemma within_refl tol u : 0 <= tol -> within tol u u.
Proof.
  intros Ht. induction u as [| a u IH]; constructor; [| exact IH].
  replace (a - a) with 0 by ring. rewrite Rabs_R0. exact Ht.
Qed.

(** C7. For every interior point of the unit ball, converting to the
    hyperboloid and back returns the point: exactly in real arithmetic, and
    so within the tolerance 1e-9 on every coordinate. *)
Theorem poincare_round_trip :
  forall x : list R,
    sqnorm x < 1 ->
    to_poincare (from_poincare x false) = x
    /\ within (1 / 1000000000) (to_poincare (from_poincare x false)) x.
Proof.
  intros x Hx. pose proof (sqnorm_nonneg x) as H0.
  assert (Heq : to_poincare (from_poincare x false) = x).
  { unfold to_poincare, from_poincare. rewrite scale_scale.
    replace (/ (1 + (1 + sqnorm x) / (1 - sqnorm x)) * (2 / (1 - sqnorm x))) with 1.
    - apply scale_one.
    - field. lra. }
  split; [exact Heq |].
  rewrite Heq. apply within_refl. lra.
Qed.

(** ** The distance and the reflection *)

Lemma mobius_sqnorm x y :
  length x = length y ->
  1 - 2 * dot x y + sqnorm x * sqnorm y <> 0 ->
  sqnorm (mobius_add (opp x) y)
  = (sqnorm x - 2 * dot x y + sqnorm y) / (1 - 2 * dot x y + sqnorm x * sqnorm y).
Proof.
  intros Hl Hd. unfold mobius_add.
  assert (Hox : sqnorm (opp x) = sqnorm x).
  { unfold sqnorm. rewrite dot_opp_l, dot_opp_r. ring. }
  rewrite Hox, dot_opp_l.
  rewrite sqnorm_scale, sqnorm_add
    by (rewrite !length_scale, length_opp; exact Hl).
  rewrite !sqnorm_scale, Hox, dot_scale_l, dot_scale_r, dot_opp_l.
  replace (1 + 2 * - dot x y + sqnorm x * sqnorm y)
    with (1 - 2 * dot x y + sqnorm x * sqnorm y) by ring.
  field. exact Hd.
Qed.

Lemma length_reflect x a : length x = length a -> length (reflect x a) = length a.
Proof.
  intros Hl. unfold reflect.
  rewrite length_add; rewrite length_scale, length_sub by exact Hl; exact Hl.
Qed.

Lemma dot_sub_l x a w :
  length x = length a -> dot (sub x a) w = dot x w - dot a w.
Proof.
  intros Hl. unfold sub. rewrite dot_add_l by (rewrite length_opp; exact Hl).
  rewrite dot_opp_l. ring.
Qed.

(** Inner products of reflected points, in terms of those of the points. *)
Lemma dot_reflect x y a :
  length x = length a -> length y = length a ->
  dot (reflect x a) (reflect y a) =
    let A := sqnorm a in
    let cx := (A - 1) / (sqnorm x - 2 * dot x a + A) in
    let cy := (A - 1) / (sqnorm y - 2 * dot y a + A) in
    cx * cy * (dot x y - dot x a - dot y a + A)
    + cx * (dot x a - A) + cy * (dot y a - A) + A.
Proof.
  intros Hx Hy. cbv zeta. unfold reflect.
  rewrite !sqnorm_sub by assumption.
  assert (Hlx : length (scale ((sqnorm a - 1) / (sqnorm x - 2 * dot x a + sqnorm a))
                          (sub x a)) = length a)
    by (rewrite length_scale, length_sub by exact Hx; exact Hx).
  assert (Hly : length (scale ((sqnorm a - 1) / (sqnorm y - 2 * dot y a + sqnorm a))
                          (sub y a)) = length a)
    by (rewrite length_scale, length_sub by exact Hy; exact Hy).
  rewrite dot_add_l by exact Hlx.
  rewrite !dot_add_r by exact Hly.
  rewrite !dot_scale_l, !dot_scale_r.
  rewrite !dot_sub_l by assumption.
  rewrite (dot_comm x (sub y a)), (dot_comm a (sub y a)).
  rewrite !dot_sub_l by assumption.
  rewrite (dot_comm y x), (dot_comm a x).
  unfold sqnorm. ring.
Qed.

Lemma sqnorm_reflect x a :
  length x = length a ->
  sqnorm (reflect x a) =
    let A := sqnorm a in
    let cx := (A - 1) / (sqnorm x - 2 * dot x a + A) in
    cx * cx * (sqnorm x - 2 * dot x a + A) + 2 * cx * (dot x a - A) + A.
Proof.
  intros Hx. unfold sqnorm at 1. rewrite dot_reflect by exact Hx.
  cbv zeta. unfold sqnorm. ring.
Qed.

(** The two scalar identities behind the isometry. *)
Lemma reflected_chord A P Q X Y W :
  X - 2 * P + A <> 0 -> Y - 2 * Q + A <> 0 ->
  let cx := (A - 1) / (X - 2 * P + A) in
  let cy := (A - 1) / (Y - 2 * Q + A) in
  let FX := cx * cx * (X - 2 * P + A) + 2 * cx * (P - A) + A in
  let FY := cy * cy * (Y - 2 * Q + A) + 2 * cy * (Q - A) + A in
  let FW := cx * cy * (W - P - Q + A) + cx * (P - A) + cy * (Q - A) + A in
  FX - 2 * FW + FY
  = (A - 1) * (A - 1) * (X - 2 * W + Y) / ((X - 2 * P + A) * (Y - 2 * Q + A)).
Proof. intros HU HV. cbv zeta. field. split; assumption. Qed.

Lemma reflected_gauge A P Q X Y W :
  X - 2 * P + A <> 0 -> Y - 2 * Q + A <> 0 ->
  let cx := (A - 1) / (X - 2 * P + A) in
  let cy := (A - 1) / (Y - 2 * Q + A) in
  let FX := cx * cx * (X - 2 * P + A) + 2 * cx * (P - A) + A in
  let FY := cy * cy * (Y - 2 * Q + A) + 2 * cy * (Q - A) + A in
  let FW := cx * cy * (W - P - Q + A) + cx * (P - A) + cy * (Q - A) + A in
  1 - 2 * FW + FX * FY
  = (A - 1) * (A - 1) * (1 - 2 * W + X * Y) / ((X - 2 * P + A) * (Y - 2 * Q + A)).
Proof. intros HU HV. cbv zeta. field. split; assumption. Qed.

(** The centre of the inverting sphere lies outside the closed ball. *)
Lemma inversion_centre mu :
  0 < sqnorm mu < 1 ->
  length (scale (/ sqnorm mu) mu) = length mu
  /\ 1 < sqnorm (scale (/ sqnorm mu) mu).
Proof.
  intros [Hpos Hlt]. split; [apply length_scale |].
  rewrite sqnorm_scale.
  replace (/ sqnorm mu * / sqnorm mu * sqnorm mu) with (/ sqnorm mu)
    by (field; lra).
  rewrite <- Rinv_1 at 1. apply Rinv_lt_contravar; lra.
Qed.

Lemma gauge_pos x y :
  length x = length y -> sqnorm x < 1 -> sqnorm y < 1 ->
  0 < 1 - 2 * dot x y + sqnorm x * sqnorm y.
Proof.
  intros Hl Hx Hy.
  pose proof (sqnorm_nonneg (sub x y)) as Hs.
  rewrite sqnorm_sub in Hs by exact Hl.
  pose proof (sqnorm_nonneg x). pose proof (sqnorm_nonneg y). nra.
Qed.

Lemma chord_pos x a :
  length x = length a -> sqnorm x < 1 -> 1 < sqnorm a ->
  0 < sqnorm x - 2 * dot x a + sqnorm a.
Proof.
  intros Hl Hx Ha. rewrite <- sqnorm_sub by exact Hl.
  apply sqnorm_sub_pos; [exact Hl | lra].
Qed.

(** The inversion keeps the ball: 1 - |f x|^2 = (|a|^2 - 1)(1 - |x|^2) / |x - a|^2. *)
Lemma reflect_in_ball x a :
  length x = length a -> sqnorm x < 1 -> 1 < sqnorm a ->
  sqnorm (reflect x a) < 1.
Proof.
  intros Hl Hx Ha. pose proof (chord_pos x a Hl Hx Ha) as HU.
  rewrite sqnorm_reflect by exact Hl. cbv zeta.
  set (U := sqnorm x - 2 * dot x a + sqnorm a) in *.
  assert (Heq : (sqnorm a - 1) / U * ((sqnorm a - 1) / U) * U
                + 2 * ((sqnorm a - 1) / U) * (dot x a - sqnorm a) + sqnorm a
                = 1 - (sqnorm a - 1) * (1 - sqnorm x) / U).
  { unfold U. field. fold U. lra. }
  rewrite Heq.
  assert (0 < (sqnorm a - 1) * (1 - sqnorm x) / U).
  { apply Rdiv_lt_0_compat; [nra | exact HU]. }
  lra.
Qed.

(** Inversion in a sphere centred outside the ball and orthogonal to the
    unit sphere preserves the quantity the distance is computed from. *)
Lemma reflect_preserves_mobius x y a :
  length x = length a -> length y = length a ->
  sqnorm x < 1 -> sqnorm y < 1 -> 1 < sqnorm a ->
  sqnorm (mobius_add (opp (reflect x a)) (reflect y a))
  = sqnorm (mobius_add (opp x) y).
Proof.
  intros Hlx Hly Hx Hy Ha.
  assert (Hxy : length x = length y) by congruence.
  pose proof (chord_pos x a Hlx Hx Ha) as HU.
  pose proof (chord_pos y a Hly Hy Ha) as HV.
  pose proof (gauge_pos x y Hxy Hx Hy) as HD.
  pose proof (reflected_chord (sqnorm a) (dot x a) (dot y a) (sqnorm x) (sqnorm y)
                (dot x y) ltac:(lra) ltac:(lra)) as Hchord.
  pose proof (reflected_gauge (sqnorm a) (dot x a) (dot y a) (sqnorm x) (sqnorm y)
                (dot x y) ltac:(lra) ltac:(lra)) as Hgauge.
  cbv zeta in Hchord, Hgauge.
  pose proof (sqnorm_reflect x a Hlx) as HFX.
  pose proof (sqnorm_reflect y a Hly) as HFY.
  pose proof (dot_reflect x y a Hlx Hly) as HFW.
  cbv zeta in HFX, HFY, HFW.
  rewrite <- HFX, <- HFY, <- HFW in Hchord, Hgauge.
  set (U := sqnorm x - 2 * dot x a + sqnorm a) in *.
  set (V := sqnorm y - 2 * dot y a + sqnorm a) in *.
  set (D := 1 - 2 * dot x y + sqnorm x * sqnorm y) in *.
  assert (HD' : 0 < (sqnorm a - 1) * (sqnorm a - 1) * D / (U * V)).
  { apply Rdiv_lt_0_compat; repeat apply Rmult_lt_0_compat; lra. }
  rewrite mobius_sqnorm.
  - rewrite Hchord, Hgauge.
    rewrite mobius_sqnorm by (try exact Hxy; fold D; lra).
    fold D. field. repeat split; lra.
  - rewrite !length_reflect by assumption. reflexivity.
  - rewrite Hgauge. lra.
Qed.

(** A centre of the ball is the origin or lies strictly inside it away
    from the origin. *)
Lemma centre_cases mu :
  sqnorm mu < 1 -> sqnorm mu = 0 \/ 0 < sqnorm mu < 1.
Proof. intros Hmu. pose proof (sqnorm_nonneg mu). lra. Qed.

Lemma sqnorm_zero u : sqnorm u = 0 -> u = map (fun _ => 0) u.
Proof.
  unfold sqnorm. induction u as [| a u IH]; cbn; [reflexivity |].
  intros H. pose proof (sqnorm_nonneg u) as Hu. unfold sqnorm in Hu.
  pose proof (Rle_0_sqr a) as Ha. unfold Rsqr in Ha.
  assert (Ha0 : a * a = 0) by lra.
  assert (Hu0 : dot u u = 0) by lra.
  rewrite <- (IH Hu0). f_equal.
  destruct (Rmult_integral _ _ Ha0); assumption.
Qed.

Lemma reflect_at_zero_origin x mu :
  sqnorm mu = 0 -> reflect_at_zero x mu = x.
Proof.
  intros H. unfold reflect_at_zero.
  destruct (Req_dec_T (sqnorm mu) 0) as [_ | Hne]; [reflexivity | contradiction].
Qed.

Lemma reflect_at_zero_inversion x mu :
  0 < sqnorm mu -> reflect_at_zero x mu = reflect x (scale (/ sqnorm mu) mu).
Proof.
  intros H. unfold reflect_at_zero.
  destruct (Req_dec_T (sqnorm mu) 0) as [H0 | _]; [lra | reflexivity].
Qed.

Lemma reflect_at_zero_distance x y mu :
  length x = length mu -> length y = length mu ->
  sqnorm x < 1 -> sqnorm y < 1 -> sqnorm mu < 1 ->
  distance (reflect_at_zero x mu) (reflect_at_zero y mu) = distance x y.
Proof.
  intros Hlx Hly Hx Hy Hball.
  destruct (centre_cases mu Hball) as [H0 | Hmu].
  - rewrite !reflect_at_zero_origin by exact H0. reflexivity.
  - destruct (inversion_centre mu Hmu) as [Hla Ha].
    rewrite !reflect_at_zero_inversion by apply Hmu.
    unfold distance.
    rewrite reflect_preserves_mobius; [reflexivity | | | | | ];
      try assumption; congruence.
Qed.


Lemma sub_scale_self k u : sub u (scale k u) = scale (1 - k) u.
Proof.
  unfold sub, opp, scale. induction u as [| c u IH]; cbn; [reflexivity |].
  rewrite IH. f_equal. ring.
Qed.

Lemma add_scale_scale c d u : add (scale c u) (scale d u) = scale (c + d) u.
Proof.
  unfold scale. induction u as [| e u IH]; cbn; [reflexivity |].
  rewrite IH. f_equal. ring.
Qed.

(** The recentring maps [mu] to the origin and keeps the ball. *)
Lemma reflect_at_zero_centre mu :
  sqnorm mu < 1 -> reflect_at_zero mu mu = map (fun _ => 0) mu.
Proof.
  intros Hball. destruct (centre_cases mu Hball) as [H0 | Hmu].
  { rewrite reflect_at_zero_origin by exact H0. apply sqnorm_zero, H0. }
  rewrite reflect_at_zero_inversion by apply Hmu. unfold reflect.
  set (k := / sqnorm mu).
  rewrite sub_scale_self, !sqnorm_scale, scale_scale, add_scale_scale.
  replace ((k * k * sqnorm mu - 1) / ((1 - k) * (1 - k) * sqnorm mu) * (1 - k) + k)
    with 0.
  - unfold scale. apply map_ext. intros c. ring.
  - unfold k. field. split; lra.
Qed.

Lemma reflect_at_zero_in_ball x mu :
  length x = length mu -> sqnorm x < 1 -> sqnorm mu < 1 ->
  sqnorm (reflect_at_zero x mu) < 1.
Proof.
  intros Hl Hx Hball. destruct (centre_cases mu Hball) as [H0 | Hmu].
  { rewrite reflect_at_zero_origin by exact H0. exact Hx. }
  destruct (inversion_centre mu Hmu) as [Hla Ha].
  rewrite reflect_at_zero_inversion by apply Hmu.
  apply reflect_in_ball; [congruence | exact Hx | exact Ha].
Qed.

(** The matrix of pairwise distances of a point set is unchanged by the
    recentring. *)
Lemma pairwise_distance_recentred z mu :
  Forall (fun p => length p = length mu /\ sqnorm p < 1) z ->
  sqnorm mu < 1 ->
  pairwise_distance (reflect_all_at_zero z mu) = pairwise_distance z.
Proof.
  intros Hz Hmu. unfold pairwise_distance, reflect_all_at_zero.
  rewrite Forall_forall in Hz.
  rewrite map_map. apply map_ext_in. intros x Hxin.
  rewrite map_map. apply map_ext_in. intros y Hyin.
  destruct (Hz x) as [Hlx Hx]; [apply list_elem_of_In; exact Hxin |].
  destruct (Hz y) as [Hly Hy]; [apply list_elem_of_In; exact Hyin |].
  apply reflect_at_zero_distance; assumption.
Qed.

(** C6. For points x, y of the open unit ball and every centre mu of the
    open unit ball, the origin included, all of one dimension, recentring
    at mu preserves the Poincare distance between x and y, exactly in real
    arithmetic. *)
Theorem reflect_at_zero_isometry :
  forall x y mu : list R,
    length x = length mu -> length y = length mu ->
    sqnorm x < 1 -> sqnorm y < 1 -> sqnorm mu < 1 ->
    distance (reflect_at_zero x mu) (reflect_at_zero y mu) = distance x y.
Proof. exact reflect_at_zero_distance. Qed.

Lemma poincare_round_trip_witness :
  sqnorm [1 / 2; 1 / 3] < 1
  /\ to_poincare (from_poincare [1 / 2; 1 / 3] false) = [1 / 2; 1 / 3].
Proof.
  assert (H : sqnorm [1 / 2; 1 / 3] < 1) by (unfold sqnorm; cbn; lra).
  split; [exact H |].
  exact (proj1 (poincare_round_trip [1 / 2; 1 / 3] H)).
Defined.

Lemma reflect_at_zero_isometry_witness :
  let x := [1 / 2; 0] in
  let y := [0; 1 / 3] in
  let mu := [1 / 4; 1 / 4] in
  (sqnorm x < 1 /\ sqnorm y < 1 /\ sqnorm mu < 1)
  /\ distance (reflect_at_zero x mu) (reflect_at_zero y mu) = distance x y.
Proof.
  intros x y mu.
  assert (Hx : sqnorm x < 1) by (unfold sqnorm; cbn; lra).
  assert (Hy : sqnorm y < 1) by (unfold sqnorm; cbn; lra).
  assert (Hmu : sqnorm mu < 1) by (unfold sqnorm; cbn; lra).
  split; [exact (conj Hx (conj Hy Hmu)) |].
  exact (reflect_at_zero_isometry x y mu eq_refl eq_refl Hx Hy Hmu).
Defined.

End GeometryFacts.

(** * More on the two notebooks *)

Section NotebookFacts.
Context {B : Backend}.

Lemma bind_returns {A C} (m : M A) (k : A -> M C) w r :
  outcome_of ((m ≫= k) w) = inr r ->
  exists a w1, outcome_of (m w) = inr (a, w1) /\ outcome_of (k a w1) = inr r.
Proof.
  unfold mbind, M_bind. destruct (m w) as [t1 [e | [a w1]]]; cbn.
  - discriminate.
  - destruct (k a w1) as [t2 r2] eqn:Hk. cbn. intros ->.
    exists a, w1. rewrite Hk. split; reflexivity.
Qed.

Lemma table_key_lookup n k :
  k ∈ table_keys <-> is_Some (pca_models n !! k).
Proof.
  rewrite pca_models_lookup. unfold table_keys. split.
  - intros Hk. repeat (apply elem_of_cons in Hk as [-> | Hk]);
      [| | | | | apply elem_of_nil in Hk; contradiction]; cbn; eexists; reflexivity.
  - intros [mp Hmp].
    repeat (case_decide; [subst; set_solver |]). discriminate.
Qed.

Lemma not_table_key_lookup n k :
  k ∉ table_keys -> pca_models n !! k = None.
Proof.
  intros Hk. destruct (pca_models n !! k) eqn:E; [| reflexivity].
  exfalso. apply Hk. apply (table_key_lookup n). eexists. exact E.
Qed.

Lemma filter_none (f : event -> bool) (t : list event) :
  Forall (fun e => f e = false) t -> filter f t = [].
Proof.
  induction 1 as [| e t He _ IH]; [reflexivity |].
  cbn. rewrite He. cbn. exact IH.
Qed.

(** No call of the reduction block occurs outside it. *)
Lemma outside_reduction cfg mu flag m :
  Forall (fun e => is_pca_call e = false /\ is_hmds_call e = false)
         (load_events cfg ++ centering_trace cfg mu flag)
  /\ Forall (fun e => is_pca_call e = false /\ is_hmds_call e = false)
            (report_events cfg m).
Proof.
  split.
  - unfold load_events, centering_trace, embedding_events, center_events.
    destruct (use_sarkar cfg); repeat constructor.
  - unfold report_events. apply Forall_app. split; [repeat constructor |].
    apply Forall_forall. intros e He.
    apply list_elem_of_In, in_map_iff in He as (line & <- & _). split; reflexivity.
Qed.

Lemma filter_run_trace (f : event -> bool) cfg mu flag t m :
  (forall e, is_pca_call e = false -> is_hmds_call e = false -> f e = false) ->
  filter f (Log (LogRunningExperiments (dataset cfg))
              :: (load_events cfg ++ centering_trace cfg mu flag
                  ++ t ++ report_events cfg m))
  = filter f t.
Proof.
  intros Hf. destruct (outside_reduction cfg mu flag m) as [H1 H2].
  apply Forall_app in H1 as [Hl Hc].
  rewrite filter_cons, (Hf (Log _)) by reflexivity.
  rewrite !filter_app.
  rewrite (filter_none f (load_events cfg)), (filter_none f (centering_trace _ _ _)),
    (filter_none f (report_events _ _)).
  - cbn. apply app_nil_r.
  - eapply Forall_impl; [exact H2 |]. intros e [Hp Hh]. apply Hf; assumption.
  - eapply Forall_impl; [exact Hc |]. intros e [Hp Hh]. apply Hf; assumption.
  - eapply Forall_impl; [exact Hl |]. intros e [Hp Hh]. apply Hf; assumption.
Qed.

Lemma main2_run_exact cfg w mu flag :
  use_sarkar cfg = true \/ dim cfg ∈ [2; 10; 50] ->
  Frechet_mean 0.01%Q 0.00001%Q 5000
      (fst (embedding cfg (load_graph (dataset cfg)))) true = [PTensor mu; flag] ->
  let x := reflect_at_zero (fst (embedding cfg (load_graph (dataset cfg)))) mu in
  Main2.run cfg w =
    (let '(t, m, w') := reduction cfg x w in
     (Log (LogRunningExperiments (dataset cfg))
        :: (load_events cfg ++ centering_trace cfg mu flag
            ++ t ++ report_events cfg m),
      inr ((MetricsDict m, config_dict_of cfg), w'))).
Proof.
  intros Hok Hmean x. unfold Main2.run.
  erewrite bind_ok by reflexivity.
  cbn [trace_of outcome_of fst snd app].
  rewrite (centering_run cfg mu flag w _ Hok Hmean).
  fold x. rewrite reduce_report_run.
  destruct (reduction cfg x w) as [[t m] w'].
  reflexivity.
Qed.

(** X1. [run] of main.ipynb never returns, and what it does before it
    raises depends on the model type: for a key of the table with a positive
    number of runs it constructs and fits one model and stops at
    [metrics.append]; with no run to make it stops at once at
    [aggregate_metrics(metrics)]; for any other model type it runs the hMDS
    computation up to the projection and stops at the store into
    [embeddings], before any metrics are computed. *)
Theorem main_run_outcomes :
  forall (x : Tensor) (cfg : config) (w : World),
    Main.run x cfg w =
      match pca_models (cfg_n_runs cfg) !! model_type cfg with
      | Some mp =>
          if decide (1 <= n_runs mp) then
            ([Call_pca_new (class mp) (dim cfg) (n_components cfg) (lr cfg) 500;
              Call_fit (class mp) x (iterative mp) (optim mp)],
             inl (UnboundLocalError "metrics"))
          else ([], inl (UnboundLocalError "metrics"))
      | None =>
          let D_p := pairwise_distance x in
          let x_h := hyperboloid_mds D_p (n_components cfg) in
          ([Log LogRunningHMDS; Call_from_poincare x; Call_hyperboloid_distance x x;
            Call_pairwise_distance x; Call_mds D_p (n_components cfg);
            Call_to_poincare x_h],
           inl (UnboundLocalError "embeddings"))
      end.
Proof.
  intros x cfg w. unfold Main.run.
  destruct (pca_models (cfg_n_runs cfg) !! model_type cfg) as [mp |] eqn:Hk.
  - case_decide as Hn.
    + erewrite bind_raise; [reflexivity |].
      apply reduce_unbound_first_run; assumption.
    + erewrite bind_raise; [reflexivity |].
      unfold reduce. rewrite Hk.
      replace (range (n_runs mp)) with 0%nat by (unfold range; lia).
      reflexivity.
  - erewrite bind_raise; [reflexivity |].
    unfold reduce. rewrite Hk. reflexivity.
Qed.

(** X2. A model type that is not a key of the table is not rejected: main2's
    [run] carries out the hMDS baseline on the centred points and returns the
    metrics of the projection, without constructing a model and without
    looking at n_runs or lr. *)
Theorem unknown_model_type_runs_hmds :
  forall (cfg : config) (w : World) (mu : Tensor) (flag : pyobj Tensor),
    let z := fst (embedding cfg (load_graph (dataset cfg))) in
    let x := reflect_at_zero z mu in
    let x_proj := hyperboloid_to_poincare
                    (hyperboloid_mds (pairwise_distance x) (n_components cfg)) in
    let m := compute_metrics x x_proj in
    model_type cfg ∉ table_keys ->
    use_sarkar cfg = true \/ dim cfg ∈ [2; 10; 50] ->
    Frechet_mean 0.01%Q 0.00001%Q 5000 z true = [PTensor mu; flag] ->
    Main2.run cfg w =
      (Log (LogRunningExperiments (dataset cfg))
         :: (load_events cfg ++ centering_trace cfg mu flag
             ++ hmds_events cfg x ++ report_events cfg m),
       inr ((MetricsDict m, config_dict_of cfg), w)).
Proof.
  intros cfg w mu flag z x x_proj m Hk Hok Hmean.
  rewrite (main2_run_exact cfg w mu flag Hok Hmean).
  unfold reduction. rewrite (not_table_key_lookup _ _ Hk). reflexivity.
Qed.

(** X3. The fits main2's [run] makes, by model type: one closed-form fit for
    "pca" and "tpca" whatever n_runs is, range(n_runs) optimised fits for
    "pga" (component by component), "bsa" and "horopca", none for any other
    model type; all of them on the centred points. *)
Theorem main2_fit_schedule :
  forall (cfg : config) (w : World) (mu : Tensor) (flag : pyobj Tensor),
    let z := fst (embedding cfg (load_graph (dataset cfg))) in
    let x := reflect_at_zero z mu in
    let n := range (cfg_n_runs cfg) in
    use_sarkar cfg = true \/ dim cfg ∈ [2; 10; 50] ->
    Frechet_mean 0.01%Q 0.00001%Q 5000 z true = [PTensor mu; flag] ->
    filter is_fit (trace_of (Main2.run cfg w)) =
      if decide (model_type cfg = "pca") then [Call_fit EucPCA x false false]
      else if decide (model_type cfg = "tpca") then [Call_fit TangentPCA x false false]
      else if decide (model_type cfg = "pga") then replicate n (Call_fit PGA x true true)
      else if decide (model_type cfg = "bsa") then replicate n (Call_fit BSA x false true)
      else if decide (model_type cfg = "horopca")
           then replicate n (Call_fit HoroPCA x false true)
      else [].
Proof.
  intros cfg w mu flag z x n Hok Hmean.
  rewrite (main2_run_exact cfg w mu flag Hok Hmean). fold z. fold x.
  assert (Hsub : forall e : event,
             is_pca_call e = false -> is_hmds_call e = false -> is_fit e = false).
  { intros []; cbn; congruence. }
  assert (Hfit : forall mp,
             pca_models (cfg_n_runs cfg) !! model_type cfg = Some mp ->
             filter is_fit (trace_of (let '(t, m, w') := reduction cfg x w in
               (Log (LogRunningExperiments (dataset cfg))
                  :: (load_events cfg ++ centering_trace cfg mu flag
                      ++ t ++ report_events cfg m),
                inr ((MetricsDict m, config_dict_of cfg), w'))))
             = replicate (range (n_runs mp))
                 (Call_fit (class mp) x (iterative mp) (optim mp))).
  { intros mp Hmp. unfold reduction. rewrite Hmp.
    destruct (fitted_models cfg mp x (range (n_runs mp)) w) as [models w'].
    cbn [trace_of fst]. rewrite filter_run_trace by exact Hsub.
    rewrite filter_app, fits_of_runs. cbn. apply app_nil_r. }
  pose proof (pca_models_lookup (cfg_n_runs cfg) (model_type cfg)) as Hl.
  repeat (case_decide; [rewrite (Hfit _ Hl); reflexivity |]).
  unfold reduction. rewrite Hl. cbn [trace_of fst].
  rewrite filter_run_trace by exact Hsub. reflexivity.
Qed.

(** X4. With a stochastic variant and n_runs zero or negative, main2's [run]
    constructs no model, hands [aggregate_metrics] the empty list and
    reports what it returns. *)
Theorem no_runs_aggregates_nothing :
  forall (cfg : config) (w : World) (mu : Tensor) (flag : pyobj Tensor),
    let z := fst (embedding cfg (load_graph (dataset cfg))) in
    let m := aggregate_metrics [] in
    model_type cfg ∈ ["pga"; "bsa"; "horopca"] ->
    cfg_n_runs cfg <= 0 ->
    use_sarkar cfg = true \/ dim cfg ∈ [2; 10; 50] ->
    Frechet_mean 0.01%Q 0.00001%Q 5000 z true = [PTensor mu; flag] ->
    Main2.run cfg w =
      (Log (LogRunningExperiments (dataset cfg))
         :: (load_events cfg ++ centering_trace cfg mu flag
             ++ [Call_aggregate_metrics []] ++ report_events cfg m),
       inr ((MetricsDict m, config_dict_of cfg), w)).
Proof.
  intros cfg w mu flag z m Hk Hn Hok Hmean.
  rewrite (main2_run_exact cfg w mu flag Hok Hmean).
  destruct (stochastic_entry cfg Hk) as (mp & Hmp & Hruns & _).
  unfold reduction. rewrite Hmp.
  replace (range (n_runs mp)) with 0%nat by (unfold range; lia).
  reflexivity.
Qed.

(** X5. In main2's reduction block, with at least one run to make, the
    loop leaves in [metrics] the aggregate of the metrics of all the fitted
    models, in run order, and in [embeddings] the projection of the last
    fitted model only; the projections of the earlier runs are gone, and so
    is the dictionary [embeddings] started as. *)
Theorem main2_loop_retains_last :
  forall (cfg : config) (mp : model_params) (x : Tensor) (w : World),
    pca_models (cfg_n_runs cfg) !! model_type cfg = Some mp ->
    1 <= n_runs mp ->
    exists (models : list Model) (m_last : Model) (w' : World),
      fitted_models cfg mp x (range (n_runs mp)) w = (models, w')
      /\ length models = range (n_runs mp)
      /\ last models = Some m_last
      /\ outcome_of (reduce cfg x {| metrics := Some (MetricsList []);
                                      embeddings := Some (EmbDict ∅) |} w)
         = inr ({| metrics := Some (MetricsDict (aggregate_metrics
                                 (map (fun m => pca_compute_metrics m x) models)));
                   embeddings := Some (EmbArray (pca_map_to_ball m_last x)) |}, w').
Proof.
  intros cfg mp x w Hk Hn.
  rewrite (reduce_pca_run cfg mp x [] (EmbDict ∅) w Hk).
  pose proof (fitted_models_length cfg mp x (range (n_runs mp)) w) as Hlen.
  destruct (fitted_models cfg mp x (range (n_runs mp)) w) as [models w'].
  cbn [fst] in Hlen.
  destruct (last models) as [m_last |] eqn:Hlast.
  - exists models, m_last, w'. repeat split; try assumption.
    cbn. unfold last_embedding. rewrite Hlast. reflexivity.
  - apply last_None in Hlast. subst models. cbn in Hlen.
    unfold range in Hlen. lia.
Qed.

(** ** Errors of main2's [run] *)

Lemma embedding_passes cfg graph w :
  use_sarkar cfg = true \/ dim cfg ∈ [2; 10; 50] ->
  get_hyperbolic_embeddings graph (dataset cfg) (dim cfg) (use_sarkar cfg)
      (sarkar_scale cfg) w
  = (embedding_events cfg graph, inr (embedding cfg graph, w)).
Proof.
  intros Hok. rewrite embedding_run.
  destruct Hok as [-> | Hd]; [reflexivity |].
  rewrite (bool_decide_eq_true_2 _ Hd), orb_true_r. reflexivity.
Qed.

(** X7. When the embedding step passes and [frechet.mean] hands back
    anything but two values, main2's [run] raises ValueError at the
    unpacking of line 119, the message being Python's for that number of
    values; the last thing it did is the call of [frechet.mean]: the flag
    is not logged, the points are not reflected, no model is fitted. *)
Theorem main2_run_unpacking_error :
  forall (cfg : config) (w : World),
    let graph := load_graph (dataset cfg) in
    let graph_dist := floyd_warshall_numpy graph (arange (number_of_nodes graph)) in
    let z := fst (embedding cfg graph) in
    let z_dist := snd (embedding cfg graph) in
    let r := Frechet_mean 0.01%Q 0.00001%Q 5000 z true in
    use_sarkar cfg = true \/ dim cfg ∈ [2; 10; 50] ->
    length r <> 2%nat ->
    Main2.run cfg w =
      (Log (LogRunningExperiments (dataset cfg))
         :: (load_events cfg ++ embedding_events cfg graph
             ++ unpack_events (dim cfg) graph_dist z z_dist),
       inl (unpack_error (length r))).
Proof.
  intros cfg w graph graph_dist z z_dist r Hok Hlen.
  unfold Main2.run.
  erewrite bind_ok by reflexivity.
  erewrite bind_ok by apply load_graph_data_run.
  cbn [trace_of outcome_of fst snd].
  erewrite bind_ok by (apply embedding_passes; exact Hok).
  fold graph. subst z z_dist r.
  destruct (embedding cfg graph) as [z z_dist].
  cbn [trace_of outcome_of fst snd] in *.
  erewrite bind_raise by (apply center_unpack_raises; exact Hlen).
  reflexivity.
Qed.

(** ** The sweep over the datasets *)

Lemma main2_run_returns_config cfg w m c w' :
  outcome_of (Main2.run cfg w) = inr ((m, c), w') -> c = config_dict_of cfg.
Proof.
  unfold Main2.run. intros H.
  apply bind_returns in H as (u & w1 & _ & H).
  apply bind_returns in H as ([graph graph_dist] & w2 & _ & H).
  apply bind_returns in H as ([z z_dist] & w3 & _ & H).
  apply bind_returns in H as (xc & w4 & _ & H).
  apply bind_returns in H as (fr & w5 & _ & H).
  apply bind_returns in H as (ms & w6 & _ & H).
  cbn in H. injection H as _ <- _. reflexivity.
Qed.


(** ** main.ipynb from top to bottom *)

Lemma centering_cells_exact g w mu flag :
  use_sarkar g = true \/ dim g ∈ [2; 10; 50] ->
  Frechet_mean 0.01%Q 0.00001%Q 5000
      (fst (embedding g (load_graph (dataset g)))) true = [PTensor mu; flag] ->
  Main.centering_cells g w =
    ([Log (LogRunningExperiments (dataset g)); Call_plt_figure]
       ++ load_events g
       ++ [Log (LogLoaded (dataset g) (number_of_nodes (load_graph (dataset g))))]
       ++ centering_trace g mu flag,
     inr (reflect_at_zero (fst (embedding g (load_graph (dataset g)))) mu, w)).
Proof.
  intros Hok Hmean. unfold Main.centering_cells.
  erewrite bind_ok by reflexivity. erewrite bind_ok by reflexivity.
  erewrite bind_ok by apply load_graph_data_run.
  cbn [trace_of outcome_of fst snd].
  erewrite bind_ok by reflexivity.
  cbn [trace_of outcome_of fst snd].
  erewrite bind_ok by (apply embedding_passes; exact Hok).
  unfold centering_trace.
  destruct (embedding g (load_graph (dataset g))) as [z z_dist] eqn:He.
  cbn [trace_of outcome_of fst snd] in *.
  rewrite (center_run _ _ _ _ mu flag w Hmean).
  reflexivity.
Qed.

(** X8. In main.ipynb, what cell 3 assigns to model_type, dim,
    n_components, lr and n_runs decides nothing about the model: cell 11
    calls [run()] with no argument, so once the points are centred the
    notebook logs the model type of cell 3, computes the pairwise distances
    of the centred points, constructs and fits a HoroPCA model of dimension
    10 with 2 components and lr 0.05, and stops at [metrics.append]. *)
Theorem notebook_fits_default_model :
  forall (g : config) (w : World) (mu : Tensor) (flag : pyobj Tensor),
    let z := fst (embedding g (load_graph (dataset g))) in
    let x := reflect_at_zero z mu in
    use_sarkar g = true \/ dim g ∈ [2; 10; 50] ->
    Frechet_mean 0.01%Q 0.00001%Q 5000 z true = [PTensor mu; flag] ->
    Main.notebook g w =
      ([Log (LogRunningExperiments (dataset g)); Call_plt_figure]
         ++ load_events g
         ++ [Log (LogLoaded (dataset g) (number_of_nodes (load_graph (dataset g))))]
         ++ centering_trace g mu flag
         ++ [Log (LogRunningModel (model_type g)); Call_pairwise_distance x;
             Call_pca_new HoroPCA 10 2 0.05%Q 500; Call_fit HoroPCA x false true],
       inl (UnboundLocalError "metrics")).
Proof.
  intros g w mu flag z x Hok Hmean. unfold Main.notebook.
  erewrite bind_ok by (apply centering_cells_exact; eassumption).
  fold z. fold x.
  erewrite bind_ok by reflexivity. erewrite bind_ok by reflexivity.
  cbn [trace_of outcome_of fst snd].
  unfold Main.run.
  erewrite bind_raise.
  2: { apply (reduce_unbound_first_run default_config
                {| class := HoroPCA; optim := true; iterative := false; n_runs := 5 |}).
       - rewrite pca_models_lookup. reflexivity.
       - cbn. lia. }
  cbn [trace_of outcome_of fst snd].
  rewrite <- !app_assoc. reflexivity.
Qed.

(** ** What a run never calls *)

Lemma emits_load_graph_data (P : event -> Prop) ds :
  (forall d, P (Call_load_graph d)) -> (forall g l, P (Call_floyd_warshall g l)) ->
  emits P (load_graph_data ds).
Proof.
  intros Hl Hf. unfold load_graph_data.
  apply emits_bind; [apply emits_call, Hl | intros g].
  apply emits_bind; [apply emits_call, Hf | intros gd].
  apply emits_ret.
Qed.

(** X9. A run of main2.ipynb uses one embedding source only: with
    use_sarkar it never calls load_embeddings, without it it never calls
    pick_root or sarkar, whatever else happens in the run. *)
Theorem one_embedding_source :
  forall (cfg : config) (w : World),
    filter (other_source cfg) (trace_of (Main2.run cfg w)) = [].
Proof.
  intros cfg w. apply filter_none. unfold other_source.
  set (P := fun e : event =>
              (if use_sarkar cfg then is_pretrained_call e else is_sarkar_call e) = false).
  assert (Hlog : forall l, P (Log l))
    by (intros l; unfold P; destruct (use_sarkar cfg); reflexivity).
  assert (Hrun : emits P (Main2.run cfg)); [| exact (Hrun w)].
  unfold Main2.run.
  apply emits_bind; [apply emits_call, Hlog | intros _].
  apply emits_bind.
  { apply emits_load_graph_data; intros; unfold P; destruct (use_sarkar cfg); reflexivity. }
  intros [graph graph_dist].
  apply emits_bind.
  { unfold get_hyperbolic_embeddings, P. destruct (use_sarkar cfg).
    - apply emits_bind; [apply emits_call; reflexivity | intros _].
      apply emits_bind; [apply emits_call; reflexivity | intros ?].
      apply emits_bind; [apply emits_call; reflexivity | intros ?].
      apply emits_bind; [apply emits_call; reflexivity | intros ?].
      apply emits_ret.
    - apply emits_bind; [apply emits_call; reflexivity | intros _].
      destruct (bool_decide (dim cfg ∈ [2; 10; 50])); [| apply emits_raise].
      apply emits_bind; [apply emits_call; reflexivity | intros ?].
      apply emits_bind; [apply emits_call; reflexivity | intros ?].
      apply emits_ret. }
  intros [z z_dist].
  apply emits_bind.
  { apply emits_center; try (intros; unfold P; destruct (use_sarkar cfg); reflexivity). }
  intros x.
  apply emits_bind.
  { apply emits_reduce.
    - intros l _. apply Hlog.
    - intros. unfold P. destruct (use_sarkar cfg); reflexivity.
    - intros []; try exact I; unfold P; destruct (use_sarkar cfg); reflexivity. }
  intros fr.
  apply emits_bind.
  { apply emits_report; [intros l _; apply Hlog |].
    intros. unfold P. destruct (use_sarkar cfg); reflexivity. }
  intros ms. apply emits_ret.
Qed.

Lemma emits_reduce_by_branch (P : event -> Prop) cfg x fr :
  (model_type cfg ∈ table_keys -> forall e, is_pca_call e = true -> P e) ->
  (model_type cfg ∉ table_keys ->
     P (Log LogRunningHMDS) /\ (forall z, P (Call_pairwise_distance z))
     /\ forall e, is_hmds_call e = true -> P e) ->
  emits P (reduce cfg x fr).
Proof.
  intros Hpca Hhmds. unfold reduce.
  destruct (pca_models (cfg_n_runs cfg) !! model_type cfg) as [mp |] eqn:Hk.
  - assert (Hin : model_type cfg ∈ table_keys).
    { apply (table_key_lookup (cfg_n_runs cfg)). eexists. exact Hk. }
    specialize (Hpca Hin).
    apply emits_bind.
    + apply emits_for_range. intros fr'. unfold fit_once.
      apply emits_bind; [apply emits_call_st, Hpca; reflexivity | intros m0].
      apply emits_bind; [apply emits_call_st, Hpca; reflexivity | intros m1].
      apply emits_bind; [apply emits_load_local | intros ms].
      apply emits_bind; [destruct ms; [apply emits_ret | apply emits_raise] | intros l].
      apply emits_bind; [apply emits_call, Hpca; reflexivity | intros m].
      apply emits_bind; [apply emits_call, Hpca; reflexivity | intros e].
      apply emits_ret.
    + intros fr'. unfold aggregate.
      apply emits_bind; [apply emits_load_local | intros ms].
      destruct ms; [| apply emits_raise].
      apply emits_bind; [apply emits_call, Hpca; reflexivity | intros a].
      apply emits_ret.
  - assert (Hout : model_type cfg ∉ table_keys).
    { intros Hin. apply (table_key_lookup (cfg_n_runs cfg)) in Hin as [mp Hmp].
      congruence. }
    destruct (Hhmds Hout) as (Hlog & Hpair & Hcalls).
    unfold hmds_baseline.
    apply emits_bind; [apply emits_call, Hlog | intros _].
    apply emits_bind; [apply emits_call, Hcalls; reflexivity | intros ?].
    apply emits_bind; [apply emits_call, Hcalls; reflexivity | intros ?].
    apply emits_bind; [apply emits_call, Hpair | intros ?].
    apply emits_bind; [apply emits_call, Hcalls; reflexivity | intros ?].
    apply emits_bind; [apply emits_call, Hcalls; reflexivity | intros ?].
    apply emits_bind; [apply emits_load_local | intros emb].
    apply emits_bind; [destruct emb; [apply emits_ret | apply emits_raise] | intros ?].
    apply emits_bind; [apply emits_call, Hcalls; reflexivity | intros ?].
    apply emits_ret.
Qed.

(** X10. A run of main2.ipynb carries out one reduction method only: for a
    model type of the table it never calls the hMDS functions (from_poincare,
    hyperboloid distance, mds, to_poincare, compute_metrics), for any other
    model type it never constructs or fits a model and never calls
    aggregate_metrics; this holds for every run, returning or not. *)
Theorem one_reduction_method :
  forall (cfg : config) (w : World),
    filter (other_method cfg) (trace_of (Main2.run cfg w)) = [].
Proof.
  intros cfg w. apply filter_none. unfold other_method.
  set (P := fun e : event =>
              (if bool_decide (model_type cfg ∈ table_keys)
               then is_hmds_call e else is_pca_call e) = false).
  assert (Hother : forall e, is_hmds_call e = false -> is_pca_call e = false -> P e).
  { intros e H1 H2. unfold P. destruct (bool_decide _); assumption. }
  assert (Hrun : emits P (Main2.run cfg)); [| exact (Hrun w)].
  unfold Main2.run.
  apply emits_bind; [apply emits_call, Hother; reflexivity | intros _].
  apply emits_bind.
  { apply emits_load_graph_data; intros; apply Hother; reflexivity. }
  intros [graph graph_dist].
  apply emits_bind.
  { apply emits_embedding; [intros; apply Hother; reflexivity |].
    intros []; try exact I; apply Hother; reflexivity. }
  intros [z z_dist].
  apply emits_bind.
  { apply emits_center; intros; apply Hother; reflexivity. }
  intros x.
  apply emits_bind.
  { apply emits_reduce_by_branch.
    - intros Hin e He. unfold P. rewrite (bool_decide_eq_true_2 _ Hin).
      destruct e; cbn in *; congruence.
    - intros Hout. unfold P. rewrite (bool_decide_eq_false_2 _ Hout).
      split; [reflexivity |]. split; [reflexivity |].
      intros e He. destruct e; cbn in *; congruence. }
  intros fr.
  apply emits_bind.
  { apply emits_report; [intros l _ |]; intros; apply Hother; reflexivity. }
  intros ms. apply emits_ret.
Qed.

End NotebookFacts.

(** * Concrete runs of the notebooks *)

Section NotebookRuns.

Lemma default_dim_passes (cfg : config) :
  dim cfg = 10 -> use_sarkar cfg = true \/ dim cfg ∈ [2; 10; 50].
Proof. intros ->. right. set_solver. Defined.

Lemma unknown_model_type_runs_hmds_witness :
  (model_type hmds_config ∉ table_keys)
  /\ @Main2.run Symbolic.converging hmds_config 0%nat =
     (Log (LogRunningExperiments "smalltree")
        :: (@load_events Symbolic.converging hmds_config
            ++ @centering_trace Symbolic.converging hmds_config Symbolic.smalltree_mean (PBool true)
            ++ @hmds_events Symbolic.converging hmds_config Symbolic.smalltree_centred
            ++ @report_events Symbolic.converging hmds_config Symbolic.smalltree_hmds),
      inr ((@MetricsDict Symbolic.converging Symbolic.smalltree_hmds,
            config_dict_of hmds_config), 0%nat)).
Proof.
  assert (Hk : model_type hmds_config ∉ table_keys).
  { cbn. unfold table_keys. intros H.
    repeat (apply elem_of_cons in H as [H | H]; [discriminate H |]).
    apply elem_of_nil in H. exact H. }
  split; [exact Hk |].
  exact (@unknown_model_type_runs_hmds Symbolic.converging hmds_config 0%nat Symbolic.smalltree_mean (PBool true) Hk
           (default_dim_passes hmds_config eq_refl) eq_refl).
Defined.

Lemma main2_fit_schedule_witness :
  (use_sarkar default_config = true \/ dim default_config ∈ [2; 10; 50])
  /\ filter is_fit (trace_of (@Main2.run Symbolic.converging default_config 0%nat))
     = replicate 5 (@Call_fit Symbolic.converging HoroPCA Symbolic.smalltree_centred false true).
Proof.
  split; [exact (default_dim_passes default_config eq_refl) |].
  exact (@main2_fit_schedule Symbolic.converging default_config 0%nat Symbolic.smalltree_mean (PBool true)
           (default_dim_passes default_config eq_refl) eq_refl).
Defined.

Lemma no_runs_aggregates_nothing_witness :
  model_type no_runs_config ∈ ["pga"; "bsa"; "horopca"]
  /\ cfg_n_runs no_runs_config <= 0
  /\ @Main2.run Symbolic.converging no_runs_config 0%nat =
     (Log (LogRunningExperiments "smalltree")
        :: (@load_events Symbolic.converging no_runs_config
            ++ @centering_trace Symbolic.converging no_runs_config Symbolic.smalltree_mean (PBool true)
            ++ [@Call_aggregate_metrics Symbolic.converging (@nil (list Symbolic.measurement))]
            ++ @report_events Symbolic.converging no_runs_config (@nil Symbolic.measurement)),
      inr ((@MetricsDict Symbolic.converging (@nil Symbolic.measurement),
            config_dict_of no_runs_config), 0%nat)).
Proof.
  assert (Hk : model_type no_runs_config ∈ ["pga"; "bsa"; "horopca"])
    by (cbn; set_solver).
  assert (Hn : cfg_n_runs no_runs_config <= 0) by (cbn; lia).
  split; [exact Hk |]. split; [exact Hn |].
  exact (@no_runs_aggregates_nothing Symbolic.converging no_runs_config 0%nat Symbolic.smalltree_mean (PBool true) Hk Hn
           (default_dim_passes no_runs_config eq_refl) eq_refl).
Defined.

Lemma main2_loop_retains_last_witness :
  let mp := {| class := HoroPCA; optim := true; iterative := false; n_runs := 5 |} in
  pca_models (cfg_n_runs default_config) !! model_type default_config = Some mp
  /\ 1 <= n_runs mp
  /\ exists models m_last w',
       @fitted_models Symbolic.converging default_config mp Symbolic.smalltree_centred 5 0%nat = (models, w')
       /\ length models = 5%nat
       /\ last models = Some m_last
       /\ @pca_map_to_ball Symbolic.converging m_last Symbolic.smalltree_centred = Symbolic.Ball HoroPCA 4 Symbolic.smalltree_centred.
Proof.
  intros mp.
  assert (Hk : pca_models (cfg_n_runs default_config) !! model_type default_config
               = Some mp) by reflexivity.
  assert (Hn : 1 <= n_runs mp) by (cbn; lia).
  split; [exact Hk |]. split; [exact Hn |].
  destruct (@main2_loop_retains_last Symbolic.converging default_config mp Symbolic.smalltree_centred 0%nat Hk Hn)
    as (models & m_last & w' & Hf & Hlen & Hlast & _).
  exists models, m_last, w'. split; [exact Hf |]. split; [exact Hlen |].
  split; [exact Hlast |].
  vm_compute in Hf. injection Hf as <- _.
  vm_compute in Hlast. injection Hlast as <-. reflexivity.
Defined.

Lemma main2_run_unpacking_error_witness :
  let z := Symbolic.smalltree in
  let run := @Main2.run Symbolic.three_valued default_config 0%nat in
  (use_sarkar default_config = true \/ dim default_config ∈ [2; 10; 50])
  /\ length (@Frechet_mean Symbolic.three_valued 0.01%Q 0.00001%Q 5000 z true) = 3%nat
  /\ outcome_of run = inl (ValueError "too many values to unpack (expected 2)")
  /\ last (trace_of run) = Some (@Call_frechet_mean Symbolic.three_valued z true).
Proof.
  intros z run.
  assert (Hok : use_sarkar default_config = true \/ dim default_config ∈ [2; 10; 50]).
  { right. cbn. set_solver. }
  assert (Hlen : length (@Frechet_mean Symbolic.three_valued 0.01%Q 0.00001%Q 5000
                           z true) = 3%nat) by reflexivity.
  split; [exact Hok |]. split; [exact Hlen |].
  assert (Hne : length (@Frechet_mean Symbolic.three_valued 0.01%Q 0.00001%Q 5000
                          z true) <> 2%nat) by (rewrite Hlen; discriminate).
  pose proof (@main2_run_unpacking_error Symbolic.three_valued default_config 0%nat
                Hok Hne) as Hrun.
  cbv zeta in Hrun. subst run. rewrite Hrun.
  split; reflexivity.
Defined.


Lemma notebook_fits_default_model_witness :
  let g := {| dataset := "smalltree"; model_type := "pca";
              metrics_final := ["distortion"]; dim := 2; n_components := 1;
              cfg_n_runs := 1; use_sarkar := false; sarkar_scale := 3.5%Q;
              lr := 0.01%Q |} in
  let z := Symbolic.Pretrained "smalltree" 2 in
  let mu := Symbolic.Step 0.01%Q z (Symbolic.Step 0.01%Q z (Symbolic.Start z)) in
  let x := Symbolic.Reflect z mu in
  (use_sarkar g = true \/ dim g ∈ [2; 10; 50])
  /\ filter is_pca_call (trace_of (@Main.notebook Symbolic.converging g 0%nat))
     = [@Call_pca_new Symbolic.converging HoroPCA 10 2 0.05%Q 500; @Call_fit Symbolic.converging HoroPCA x false true]
  /\ outcome_of (@Main.notebook Symbolic.converging g 0%nat) = inl (UnboundLocalError "metrics").
Proof.
  intros g z mu x.
  assert (Hok : use_sarkar g = true \/ dim g ∈ [2; 10; 50]) by (right; cbn; set_solver).
  split; [exact Hok |].
  rewrite (@notebook_fits_default_model Symbolic.converging g 0%nat mu (PBool true) Hok eq_refl).
  split; reflexivity.
Defined.

End NotebookRuns.
